(** * Interstellar particle simulation: ParticleSystem and SolarSystem

    A shallow embedding of [app/lib/ParticleSystem.ts] and
    [app/lib/SolarSystem.ts].

    Numbers.  A JavaScript [number] is an IEEE 754 binary64 value, so it is
    modelled by Rocq's primitive [float], whose [+ - * / sqrt] and comparisons
    are the IEEE operations (round to nearest even).  Values stored in a
    [Float32Array] are rounded to binary32 by [fround].  Quantities that the
    code only ever uses as counters or array lengths (they stay far below 2^53
    and are therefore exact as doubles) are modelled by [Z] and [nat].

    Host functions.  [Math.sin], [Math.cos] and [Math.atan2] are
    implementation-approximated in ECMAScript and [Math.random] is an
    implementation-defined stream, so the model takes them as a parameter
    (the record [Host]); [Math.sqrt] is the correctly rounded IEEE square
    root. *)

From Stdlib Require Import Floats ZArith List Lia Bool Arith String.
From Stdlib Require Import DecimalString.
Import ListNotations.

Set Warnings "-inexact-float".

(* ------------------------------------------------------------------------- *)
(** ** JavaScript numbers *)

Module JS.

Local Open Scope float_scope.

(** [a > b] on numbers. *)
Definition gtb (a b : float) : bool := b <? a.

(** [a !== b] on numbers: NaN differs from everything, -0 equals +0. *)
Definition strict_neq (a b : float) : bool := negb (a =? b).

(** Truthiness of a number: 0, -0 and NaN are falsy. *)
Definition truthy (a : float) : bool := negb (a =? 0) && negb (is_nan a).

(** [a || b] on numbers. *)
Definition or_else (a b : float) : float := if truthy a then a else b.

Definition Math_PI : float := 3.141592653589793.

(** Rounding of a double to the nearest binary32 value, the conversion a
    store into a [Float32Array] performs ([Math.fround]). *)
Definition round32 (s : spec_float) : spec_float :=
  match s with
  | S754_finite sg m e =>
      binary_normalize 24 128 (if sg then Z.neg m else Z.pos m) e sg
  | other => other
  end.

Definition fround (a : float) : float := SF2Prim (round32 (Prim2SF a)).

(** A count as a number (exact below 2^53). *)
Definition of_count (n : Z) : float := of_uint63 (Uint63.of_Z n).

End JS.

(* ------------------------------------------------------------------------- *)
(** ** THREE.Vector3, the operations the simulation calls *)

Module THREE.

Local Open Scope float_scope.

Record Vector3 : Set := vec3 { x : float; y : float; z : float }.

Definition add (a b : Vector3) : Vector3 :=
  vec3 (x a + x b) (y a + y b) (z a + z b).

Definition sub (a b : Vector3) : Vector3 :=
  vec3 (x a - x b) (y a - y b) (z a - z b).

(** [new Vector3().subVectors(a, b)] *)
Definition subVectors (a b : Vector3) : Vector3 := sub a b.

Definition multiplyScalar (a : Vector3) (s : float) : Vector3 :=
  vec3 (x a * s) (y a * s) (z a * s).

Definition divideScalar (a : Vector3) (s : float) : Vector3 :=
  multiplyScalar a (1 / s).

Definition lengthSq (a : Vector3) : float :=
  x a * x a + y a * y a + z a * z a.

Definition length (a : Vector3) : float := sqrt (lengthSq a).

(** [normalize] divides by [this.length() || 1]. *)
Definition normalize (a : Vector3) : Vector3 :=
  divideScalar a (JS.or_else (length a) 1).

Definition crossVectors (a b : Vector3) : Vector3 :=
  vec3 (y a * z b - z a * y b)
       (z a * x b - x a * z b)
       (x a * y b - y a * x b).

Definition distanceToSquared (a b : Vector3) : float :=
  let dx := x a - x b in
  let dy := y a - y b in
  let dz := z a - z b in
  dx * dx + dy * dy + dz * dz.

Definition distanceTo (a b : Vector3) : float := sqrt (distanceToSquared a b).

End THREE.

Import THREE(Vector3, vec3).

(* ------------------------------------------------------------------------- *)
(** ** SolarSystem.ts: the planet catalog *)

Module SolarSystem.

Local Open Scope float_scope.
Local Open Scope string_scope.

(** The [color] string of a planet is presentation only and is left out. *)
Record Planet : Set := mkPlanet {
  name : string;
  position : Vector3;
  radius : float;
  mass : float
}.

Definition initializePlanets : list Planet :=
  [ mkPlanet "Mercury" (vec3 5.8 0 0) 0.3 0.055;
    mkPlanet "Venus" (vec3 10.8 0 0) 0.6 0.815;
    mkPlanet "Earth" (vec3 15 0 0) 0.6 1.0;
    mkPlanet "Mars" (vec3 22.8 0 0) 0.4 0.107;
    mkPlanet "Jupiter" (vec3 77.8 0 0) 1.5 317.8;
    mkPlanet "Saturn" (vec3 143 0 0) 1.2 95.2;
    mkPlanet "Uranus" (vec3 287 0 0) 0.8 14.5;
    mkPlanet "Neptune" (vec3 450 0 0) 0.8 17.1 ].

Definition getPlanets : list Planet := initializePlanets.

Definition sunMass : float := 1000.

(** [this.planets.find(p => p.name === name)]; [None] is [undefined]. *)
Definition getPlanetByName (n : string) : option Planet :=
  find (fun p => String.eqb (name p) n) getPlanets.

End SolarSystem.

(* ------------------------------------------------------------------------- *)
(** ** ParticleSystem.ts: particles *)

Inductive ParticleType : Set := HYDROGEN | HELIUM | HEAVY_ION | DUST.

Record Particle : Set := mkParticle {
  position : Vector3;
  velocity : Vector3;
  mass : float;
  charge : float;
  type : ParticleType;
  active : bool;
  deflected : bool;
  age : float;
  energy : float
}.

(** Field assignments [particle.f = v]. *)
Definition set_age (a : float) (p : Particle) : Particle :=
  mkParticle (position p) (velocity p) (mass p) (charge p) (type p)
             (active p) (deflected p) a (energy p).

Definition set_deflected (d : bool) (p : Particle) : Particle :=
  mkParticle (position p) (velocity p) (mass p) (charge p) (type p)
             (active p) d (age p) (energy p).

Definition set_active (a : bool) (p : Particle) : Particle :=
  mkParticle (position p) (velocity p) (mass p) (charge p) (type p)
             a (deflected p) (age p) (energy p).

Definition set_velocity (v : Vector3) (p : Particle) : Particle :=
  mkParticle (position p) v (mass p) (charge p) (type p)
             (active p) (deflected p) (age p) (energy p).

Definition set_position (v : Vector3) (p : Particle) : Particle :=
  mkParticle v (velocity p) (mass p) (charge p) (type p)
             (active p) (deflected p) (age p) (energy p).

(** Code that calls [Math.random()] threads the number of values drawn so
    far: a computation takes that count and returns its result with the new
    count. *)
Definition Rand (A : Type) : Type := nat -> A * nat.

Definition ret {A} (a : A) : Rand A := fun k => (a, k).

Definition bind {A B} (c : Rand A) (f : A -> Rand B) : Rand B :=
  fun k => let (a, k') := c k in f a k'.

Notation "x <- c ;; f" := (bind c (fun x => f))
  (at level 61, c at next level, right associativity).
Notation "' pat <- c ;; f" := (bind c (fun x => match x with pat => f end))
  (at level 61, pat pattern, c at next level, right associativity).

(** Private constants of the class. *)
Definition sunPosition : Vector3 := vec3 0 0 0.
Definition heliopauseRadius : float := 500.
Definition G : float := 0.001.
Definition solarWindStrength : float := 0.5.
Definition magneticFieldStrength : float := 0.3.

(** The collision table of [checkPlanetaryCollision]. *)
Record CollisionEntry : Set := mkEntry { pos : Vector3; radius : float }.

Definition planetPositions : list CollisionEntry :=
  [ mkEntry (vec3 5.8 0 0) 0.5;    (* Mercury *)
    mkEntry (vec3 10.8 0 0) 0.8;   (* Venus *)
    mkEntry (vec3 15 0 0) 0.8;     (* Earth *)
    mkEntry (vec3 22.8 0 0) 0.6;   (* Mars *)
    mkEntry (vec3 77.8 0 0) 2.0;   (* Jupiter *)
    mkEntry (vec3 143 0 0) 1.5;    (* Saturn *)
    mkEntry (vec3 287 0 0) 1.0;    (* Uranus *)
    mkEntry (vec3 450 0 0) 1.0 ].  (* Neptune *)

(** The [for (const planet of ...)] loop with its early [return true]. *)
Fixpoint collidesWithAny (position : Vector3) (table : list CollisionEntry)
  : bool :=
  match table with
  | [] => false
  | planet :: rest =>
      if (THREE.distanceTo position (pos planet) <? radius planet)%float
      then true
      else collidesWithAny position rest
  end.

Definition checkPlanetaryCollision (position : Vector3) : bool :=
  collidesWithAny position planetPositions.

(* ------------------------------------------------------------------------- *)
(** ** Statistics

    The statistics object and the two objects nested in it are JavaScript
    objects held by reference: [getStatistics] hands out a new object whose
    [energyDistribution] and [particleTypes] properties are the same
    references as the stored ones.  They are therefore modelled in a heap
    of objects addressed by location. *)

Definition loc : Set := nat.

Record EnergyDistribution : Set := mkEnergy {
  low : Z; medium : Z; high : Z
}.

Record ParticleTypes : Set := mkTypes {
  hydrogen : Z; helium : Z; ions : Z; dust : Z
}.

Record Stats : Set := mkStats {
  totalParticles : Z;
  activeParticles : Z;
  deflectedParticles : Z;
  capturedParticles : Z;
  averageVelocity : float;
  energyDistribution : loc;
  particleTypes : loc
}.

Inductive Obj : Set :=
| OEnergy (e : EnergyDistribution)
| OTypes (t : ParticleTypes)
| OStats (s : Stats).

Definition Heap : Set := list Obj.

(** A new object gets the next free location. *)
Definition alloc (h : Heap) (o : Obj) : loc * Heap :=
  (List.length h, h ++ [o]).

Definition lookup (h : Heap) (l : loc) : option Obj := nth_error h l.

(** In-place change of the object at [l]. *)
Fixpoint modify (l : loc) (f : Obj -> Obj) (h : Heap) : Heap :=
  match h, l with
  | [], _ => []
  | o :: rest, O => f o :: rest
  | o :: rest, S l' => o :: modify l' f rest
  end.

(** The local variables of [updateStatistics]. *)
Module Counters.
Record t : Set := mk {
  activeCount : Z;
  deflectedCount : Z;
  capturedCount : Z;
  totalVelocity : float;
  types : ParticleTypes;
  energy : EnergyDistribution
}.
End Counters.

Definition countType (ty : ParticleType) (types : ParticleTypes)
  : ParticleTypes :=
  match ty with
  | HYDROGEN =>
      mkTypes (hydrogen types + 1) (helium types) (ions types) (dust types)
  | HELIUM =>
      mkTypes (hydrogen types) (helium types + 1) (ions types) (dust types)
  | HEAVY_ION =>
      mkTypes (hydrogen types) (helium types) (ions types + 1) (dust types)
  | DUST =>
      mkTypes (hydrogen types) (helium types) (ions types) (dust types + 1)
  end%Z.

Definition countEnergy (e : float) (energy : EnergyDistribution)
  : EnergyDistribution :=
  if (e <? 100)%float then
    mkEnergy (low energy + 1) (medium energy) (high energy)
  else if (e <? 1000)%float then
    mkEnergy (low energy) (medium energy + 1) (high energy)
  else mkEnergy (low energy) (medium energy) (high energy + 1).

(** The body of the [for (const particle of this.particles)] loop. *)
Definition countParticle (c : Counters.t) (particle : Particle)
  : Counters.t :=
  if active particle then
    Counters.mk
      (Counters.activeCount c + 1)
      (if deflected particle then Counters.deflectedCount c + 1
       else Counters.deflectedCount c)
      (Counters.capturedCount c)
      (Counters.totalVelocity c + THREE.length (velocity particle))%float
      (countType (type particle) (Counters.types c))
      (countEnergy (energy particle) (Counters.energy c))
  else
    Counters.mk
      (Counters.activeCount c)
      (Counters.deflectedCount c)
      (Counters.capturedCount c + 1)
      (Counters.totalVelocity c)
      (Counters.types c)
      (Counters.energy c).

Definition initialCounters : Counters.t :=
  Counters.mk 0 0 0 0 (mkTypes 0 0 0 0) (mkEnergy 0 0 0).

Definition countParticles (particles : list Particle) : Counters.t :=
  fold_left countParticle particles initialCounters.

(* ------------------------------------------------------------------------- *)
(** ** The system state and the operations that use no host function *)

Record ParticleSystem : Set := mkSystem {
  particles : list Particle;
  maxParticles : Z;        (* a whole number, as the scene passes it *)
  timeScale : float;
  stats : loc;             (* [this.stats], a reference *)
  heap : Heap;             (* the objects reachable through [stats] and
                              through the results of [getStatistics] *)
  drawn : nat              (* values of [Math.random()] used so far *)
}.

Definition updateStatistics (sys : ParticleSystem) : ParticleSystem :=
  let c := countParticles (particles sys) in
  let (types, h) := alloc (heap sys) (OTypes (Counters.types c)) in
  let (energy, h) := alloc h (OEnergy (Counters.energy c)) in
  let (stats, h) :=
    alloc h
      (OStats
         (mkStats
            (Z.of_nat (List.length (particles sys)))
            (Counters.activeCount c)
            (Counters.deflectedCount c)
            (Counters.capturedCount c)
            (if (0 <? Counters.activeCount c)%Z
             then (Counters.totalVelocity c
                   / JS.of_count (Counters.activeCount c))%float
             else 0%float)
            energy
            types)) in
  mkSystem (particles sys) (maxParticles sys) (timeScale sys) stats h
           (drawn sys).

Definition setTimeScale (scale : float) (sys : ParticleSystem)
  : ParticleSystem :=
  mkSystem (particles sys) (maxParticles sys) scale (stats sys) (heap sys)
           (drawn sys).

(** [{ ...this.stats }]: a new object with the same property values; the
    values of [energyDistribution] and [particleTypes] are references and
    are copied as such.  [None] would be a dangling [this.stats]. *)
Definition getStatistics (sys : ParticleSystem)
  : option (loc * ParticleSystem) :=
  match lookup (heap sys) (stats sys) with
  | Some o =>
      let (l, h) := alloc (heap sys) o in
      Some (l, mkSystem (particles sys) (maxParticles sys) (timeScale sys)
                        (stats sys) h (drawn sys))
  | None => None
  end.

(* ------------------------------------------------------------------------- *)
(** ** The render buffers

    A [Float32Array] is a fixed-length array of binary32 values: it starts
    filled with zeros, a store rounds the value to binary32, and a store at
    an index outside the array does nothing. *)

Definition Float32Array : Set := list float.

Definition Float32Array_new (n : nat) : Float32Array := repeat 0%float n.

Fixpoint Float32Array_set (i : nat) (v : float) (a : Float32Array)
  : Float32Array :=
  match a, i with
  | [], _ => []
  | _ :: rest, O => JS.fround v :: rest
  | c :: rest, S i' => c :: Float32Array_set i' v rest
  end.

(** The loop both accessors run, [i] being the index of the first particle
    of [ps]:
    [buf[i * 3] = a; buf[i * 3 + 1] = b; buf[i * 3 + 2] = c] for the triplet
    [(a, b, c)] computed from particle [i]. *)
Fixpoint writeTriplets (triplet : Particle -> float * float * float)
  (i : nat) (ps : list Particle) (buf : Float32Array) : Float32Array :=
  match ps with
  | [] => buf
  | particle :: rest =>
      let '(a, b, c) := triplet particle in
      let buf := Float32Array_set (i * 3) a buf in
      let buf := Float32Array_set (i * 3 + 1) b buf in
      let buf := Float32Array_set (i * 3 + 2) c buf in
      writeTriplets triplet (S i) rest buf
  end.

Definition positionTriplet (particle : Particle) : float * float * float :=
  (THREE.x (position particle),
   THREE.y (position particle),
   THREE.z (position particle)).

Definition getPositions (sys : ParticleSystem) : Float32Array :=
  let positions := Float32Array_new (List.length (particles sys) * 3) in
  writeTriplets positionTriplet 0 (particles sys) positions.

(** The [switch (particle.type)] of [getColors]. *)
Definition typeColor (ty : ParticleType) : float * float * float :=
  match ty with
  | HYDROGEN => (0.4, 0.5, 0.9)    (* Blue *)
  | HELIUM => (0.9, 0.3, 0.6)      (* Pink *)
  | HEAVY_ION => (0.1, 0.9, 0.5)   (* Green *)
  | DUST => (1.0, 0.6, 0.1)        (* Orange *)
  end%float.

Definition colorTriplet (particle : Particle) : float * float * float :=
  if negb (active particle) then (0, 0, 0)%float
  else
    let '(r, g, b) := typeColor (type particle) in
    if deflected particle then (r * 1.2, g * 1.2, b * 1.2)%float
    else (r, g, b).

Definition getColors (sys : ParticleSystem) : Float32Array :=
  let colors := Float32Array_new (List.length (particles sys) * 3) in
  writeTriplets colorTriplet 0 (particles sys) colors.

(* ------------------------------------------------------------------------- *)
(** ** Spawning and the per-frame update *)

(** The host's [Math.sin], [Math.cos], [Math.atan2], and the sequence of
    values its [Math.random()] returns ([host_random k] is the value of the
    call number [k], counting from 0). *)
Record Host : Set := mkHost {
  host_sin : float -> float;
  host_cos : float -> float;
  host_atan2 : float -> float -> float;
  host_random : nat -> float
}.

Section ParticleSystem.

Variable host : Host.

Local Abbreviation Math_sin := (host_sin host).
Local Abbreviation Math_cos := (host_cos host).
Local Abbreviation Math_atan2 := (host_atan2 host).
Local Abbreviation Math_random := (host_random host).

Local Open Scope float_scope.

Definition random : Rand float := fun k => (Math_random k, S k).

Definition createParticle : Rand Particle :=
  rand <- random ;;
  '(type, mass, charge) <-
    (if rand <? 0.90 then
       ret (HYDROGEN, 1.0, 1.0)
     else if rand <? 0.99 then
       ret (HELIUM, 4.0, 2.0)
     else if rand <? 0.998 then
       m <- random ;;
       c <- random ;;
       ret (HEAVY_ION, 12.0 + m * 40, 3.0 + c * 10)
     else
       m <- random ;;
       ret (DUST, 1000.0 + m * 10000, 0)) ;;
  (* Spawn particles at the heliopause boundary *)
  t <- random ;;
  let theta := t * JS.Math_PI * 2 in
  f <- random ;;
  let phi := f * JS.Math_PI in
  u <- random ;;
  let r := heliopauseRadius * (0.95 + u * 0.1) in
  let position :=
    vec3 (r * Math_sin phi * Math_cos theta)
         (r * Math_sin phi * Math_sin theta)
         (r * Math_cos phi) in
  let baseVelocity := THREE.normalize (vec3 0.3 (-0.1) (-0.4)) in
  w <- random ;;
  let velocityMagnitude := 2.0 + w * 1.0 in
  tx <- random ;;
  ty <- random ;;
  tz <- random ;;
  let thermalVelocity :=
    vec3 ((tx - 0.5) * 0.5) ((ty - 0.5) * 0.5) ((tz - 0.5) * 0.5) in
  let velocity :=
    THREE.add (THREE.multiplyScalar baseVelocity velocityMagnitude)
              thermalVelocity in
  let energy := 0.5 * mass * THREE.lengthSq velocity * 100 in
  ret (mkParticle position velocity mass charge type true false 0 energy).

Definition calculateMagneticField (position : Vector3) : Vector3 :=
  let r := THREE.length position in
  let theta :=
    Math_atan2 (THREE.z position)
               (sqrt (THREE.x position * THREE.x position
                      + THREE.y position * THREE.y position)) in
  let phi := Math_atan2 (THREE.y position) (THREE.x position) in
  let Br := 0.1 / (r * r + 1) in
  let Bphi := -0.05 * Math_sin theta / (r + 1) in
  let sinPhi := Math_sin phi in
  let cosPhi := Math_cos phi in
  let sinTheta := Math_sin theta in
  let cosTheta := Math_cos theta in
  vec3 (Br * sinTheta * cosPhi - Bphi * sinPhi)
       (Br * sinTheta * sinPhi + Bphi * cosPhi)
       (Br * cosTheta).

(** *** The body of the [update] loop for an active particle

    The three force terms are kept as separate definitions so that each
    can be talked about; [None] means the guard of the term was false and
    nothing was added to [force]. *)

Definition distanceToSun (particle : Particle) : float :=
  THREE.length (THREE.subVectors sunPosition (position particle)).

Definition gravityForce (particle : Particle) : option Vector3 :=
  let toSun := THREE.subVectors sunPosition (position particle) in
  let distanceToSun := THREE.length toSun in
  if JS.gtb distanceToSun 0 then
    let gravityMagnitude :=
      (G * 1000 * mass particle) / (distanceToSun * distanceToSun) in
    Some (THREE.multiplyScalar (THREE.normalize toSun) gravityMagnitude)
  else None.

Definition solarWindForce (particle : Particle) : option Vector3 :=
  let distanceToSun := distanceToSun particle in
  if JS.gtb distanceToSun 0 && (distanceToSun <? heliopauseRadius) then
    let solarWindMagnitude :=
      solarWindStrength / (distanceToSun * distanceToSun + 1) in
    Some (THREE.multiplyScalar (THREE.normalize (position particle))
                               solarWindMagnitude)
  else None.

Definition lorentzForce (particle : Particle) : option Vector3 :=
  let distanceToSun := distanceToSun particle in
  if JS.strict_neq (charge particle) 0
     && (distanceToSun <? heliopauseRadius) then
    let magneticField := calculateMagneticField (position particle) in
    let lorentzForce :=
      THREE.crossVectors (velocity particle) magneticField in
    Some (THREE.multiplyScalar lorentzForce
            (charge particle * magneticFieldStrength / mass particle))
  else None.

(** [force.add(f)] when the term applies. *)
Definition addForce (force : Vector3) (f : option Vector3) : Vector3 :=
  match f with
  | Some v => THREE.add force v
  | None => force
  end.

Definition totalForce (particle : Particle) : Vector3 :=
  let force := vec3 0 0 0 in
  let force := addForce force (gravityForce particle) in
  let force := addForce force (solarWindForce particle) in
  addForce force (lorentzForce particle).

(** [if (lorentzForce.length() > 0.1) particle.deflected = true] *)
Definition markDeflected (particle : Particle) : Particle :=
  match lorentzForce particle with
  | Some f =>
      if JS.gtb (THREE.length f) 0.1 then set_deflected true particle
      else particle
  | None => particle
  end.

(** The boundary checks, an [if / else if / else if] chain. *)
Definition checkBoundaries (particle : Particle) : Particle :=
  if THREE.length (position particle) <? 2 then
    set_active false particle              (* captured by the Sun *)
  else if JS.gtb (THREE.length (position particle))
                 (heliopauseRadius * 1.2) then
    set_active false particle              (* exited the simulation *)
  else if JS.gtb (age particle) 100 then
    set_active false particle              (* too old *)
  else particle.

Definition checkCollision (particle : Particle) : Particle :=
  if checkPlanetaryCollision (position particle)
  then set_active false particle
  else particle.

(** [force.divideScalar(particle.mass)] *)
Definition acceleration (particle : Particle) : Vector3 :=
  THREE.divideScalar (totalForce particle) (mass particle).

(** Lines 152-192: ageing, forces, velocity and position of a particle known
    to be active.  The forces are computed from the particle as it is after
    [age += dt]; position and velocity are still the old ones there, and
    the position step uses the new velocity. *)
Definition advance (dt : float) (particle : Particle) : Particle :=
  let particle := set_age (age particle + dt) particle in
  let acceleration := acceleration particle in
  let particle := markDeflected particle in
  let particle :=
    set_velocity
      (THREE.add (velocity particle) (THREE.multiplyScalar acceleration dt))
      particle in
  set_position
    (THREE.add (position particle)
               (THREE.multiplyScalar (velocity particle) dt))
    particle.

(** Lines 152-209: the loop body for an active particle. *)
Definition integrate (dt : float) (particle : Particle) : Particle :=
  checkCollision (checkBoundaries (advance dt particle)).

(** One iteration of the loop: an inactive particle is overwritten by a
    new one ([Object.assign] copies every field) and the rest of the body
    is skipped by [continue]. *)
Definition updateParticle (dt : float) (particle : Particle)
  : Rand Particle :=
  if negb (active particle) then createParticle
  else ret (integrate dt particle).

Fixpoint updateParticles (dt : float) (particles : list Particle)
  : Rand (list Particle) :=
  match particles with
  | [] => ret []
  | particle :: rest =>
      particle' <- updateParticle dt particle ;;
      rest' <- updateParticles dt rest ;;
      ret (particle' :: rest')
  end.

(* ----------------------------------------------------------------------- *)
(** *** Construction, [update] and [reset] *)

(** [for (let i = 0; i < this.maxParticles; i++) push(createParticle())]:
    [n] is the number of iterations left. *)
Fixpoint spawn (n : nat) : Rand (list Particle) :=
  match n with
  | O => ret []
  | S n' =>
      particle <- createParticle ;;
      rest <- spawn n' ;;
      ret (particle :: rest)
  end.

(** The loop runs [maxParticles] times, and not at all when
    [maxParticles] is negative. *)
Definition initializeParticles (sys : ParticleSystem) : ParticleSystem :=
  let (ps, k) := spawn (Z.to_nat (maxParticles sys)) (drawn sys) in
  updateStatistics
    (mkSystem ps (maxParticles sys) (timeScale sys) (stats sys) (heap sys) k).

(** [new ParticleSystem(maxParticles)]: the field initialisers, then the
    constructor body. *)
Definition new (maxParticles : Z) : ParticleSystem :=
  let (energy, h) := alloc [] (OEnergy (mkEnergy 0 0 0)) in
  let (types, h) := alloc h (OTypes (mkTypes 0 0 0 0)) in
  let (stats, h) := alloc h (OStats (mkStats 0 0 0 0 0 energy types)) in
  initializeParticles (mkSystem [] maxParticles 1 stats h 0).

Definition update (deltaTime : float) (sys : ParticleSystem)
  : ParticleSystem :=
  let dt := deltaTime * timeScale sys in
  let (ps, k) := updateParticles dt (particles sys) (drawn sys) in
  updateStatistics
    (mkSystem ps (maxParticles sys) (timeScale sys) (stats sys) (heap sys) k).

Definition reset (sys : ParticleSystem) : ParticleSystem :=
  initializeParticles sys.

(** The calls a client can make that change the system. *)
Inductive Call : Set :=
| CallUpdate (deltaTime : float)
| CallSetTimeScale (scale : float)
| CallReset.

Definition call (c : Call) (sys : ParticleSystem) : ParticleSystem :=
  match c with
  | CallUpdate deltaTime => update deltaTime sys
  | CallSetTimeScale scale => setTimeScale scale sys
  | CallReset => reset sys
  end.

(** The system after the calls [cs], made in order. *)
Definition run (cs : list Call) (sys : ParticleSystem) : ParticleSystem :=
  fold_left (fun s c => call c s) cs sys.

End ParticleSystem.

(* ------------------------------------------------------------------------- *)
(** ** A concrete host for the examples

    ECMAScript only asks [Math.sin], [Math.cos] and [Math.atan2] to
    approximate the mathematical functions.  The examples below run on this
    host: truncated Taylor series, meant for the arguments the simulation
    passes (angles between -2*pi and 2*pi), and a fixed sequence of random
    values. *)

Module ExampleHost.

Local Open Scope float_scope.

(** [1 - x2/(k(k+1)) * (1 - x2/((k+2)(k+3)) * ...)], [n] factors deep. *)
Fixpoint alternating (n : nat) (k x2 : float) : float :=
  match n with
  | O => 1
  | S n' => 1 - x2 / (k * (k + 1)) * alternating n' (k + 2) x2
  end.

Definition sin (a : float) : float := a * alternating 20 2 (a * a).

Definition cos (a : float) : float := alternating 20 1 (a * a).

(** [1/k - y2 * (1/(k+2) - y2 * ...)], the series of [atan y / y]. *)
Fixpoint atanSeries (n : nat) (k y2 : float) : float :=
  match n with
  | O => 1 / k
  | S n' => 1 / k - y2 * atanSeries n' (k + 2) y2
  end.

(** [atan t = 2 * atan (t / (1 + sqrt (1 + t*t)))], applied three times to
    bring the argument below tan(pi/16). *)
Definition halve (t : float) : float := t / (1 + sqrt (1 + t * t)).

Definition atan (t : float) : float :=
  let u := halve (halve (halve t)) in
  8 * (u * atanSeries 20 1 (u * u)).

Definition atan2 (b a : float) : float :=
  if 0 <? a then atan (b / a)
  else if a <? 0 then
    if b <? 0 then atan (b / a) - JS.Math_PI else atan (b / a) + JS.Math_PI
  else if 0 <? b then JS.Math_PI / 2
  else if b <? 0 then - (JS.Math_PI / 2)
  else 0.

(** Random value number [k]: the hundredths [(37 k + 11) mod 100]. *)
Definition random (k : nat) : float :=
  JS.of_count (Z.of_nat (Nat.modulo (37 * k + 11) 100)) / 100.

Definition host : Host := mkHost sin cos atan2 random.

End ExampleHost.

(* ------------------------------------------------------------------------- *)
(** ** Views used to state the properties *)

(** What a reader of the statistics object at [l] sees: its own properties
    and, through its two references, the nested objects. *)
Definition snapshotAt (h : Heap) (l : loc)
  : option (Stats * EnergyDistribution * ParticleTypes) :=
  match lookup h l with
  | Some (OStats s) =>
      match lookup h (energyDistribution s), lookup h (particleTypes s) with
      | Some (OEnergy e), Some (OTypes t) => Some (s, e, t)
      | _, _ => None
      end
  | _ => None
  end.

(** The snapshot the system itself holds, [this.stats]. *)
Definition storedStatistics (sys : ParticleSystem)
  : option (Stats * EnergyDistribution * ParticleTypes) :=
  snapshotAt (heap sys) (stats sys).

(** A client's assignment [s.particleTypes.hydrogen = v] on a statistics
    object [s] it holds. *)
Definition assignHydrogen (s : loc) (v : Z) (h : Heap) : Heap :=
  match lookup h s with
  | Some (OStats st) =>
      modify (particleTypes st)
        (fun o =>
           match o with
           | OTypes t => OTypes (mkTypes v (helium t) (ions t) (dust t))
           | other => other
           end) h
  | _ => h
  end.

(** A client's assignment [s.totalParticles = v]. *)
Definition assignTotalParticles (s : loc) (v : Z) (h : Heap) : Heap :=
  modify s
    (fun o =>
       match o with
       | OStats st =>
           OStats (mkStats v (activeParticles st) (deflectedParticles st)
                     (capturedParticles st) (averageVelocity st)
                     (energyDistribution st) (particleTypes st))
       | other => other
       end) h.

Definition withHeap (h : Heap) (sys : ParticleSystem) : ParticleSystem :=
  mkSystem (particles sys) (maxParticles sys) (timeScale sys) (stats sys) h
           (drawn sys).

(** The three values a buffer holds for one particle. *)
Definition storedTriplet (triplet : Particle -> float * float * float)
  (particle : Particle) : list float :=
  let '(a, b, c) := triplet particle in
  [JS.fround a; JS.fround b; JS.fround c].

(** [Number.isFinite]. *)
Definition isFinite (a : float) : bool :=
  match Prim2SF a with
  | S754_zero _ | S754_finite _ _ _ => true
  | S754_infinity _ | S754_nan => false
  end.

Definition finiteVector (v : Vector3) : bool :=
  isFinite (THREE.x v) && isFinite (THREE.y v) && isFinite (THREE.z v).

(** [b] is the number [a], except that a negative zero may have become a
    positive zero (the two are equal for [===]). *)
Definition sameNumber (a b : float) : Prop :=
  b = a \/ (a = (-0)%float /\ b = 0%float).

Definition sameVector (a b : Vector3) : Prop :=
  sameNumber (THREE.x a) (THREE.x b)
  /\ sameNumber (THREE.y a) (THREE.y b)
  /\ sameNumber (THREE.z a) (THREE.z b).

(** A system whose particles are [ps], as a test would set one up: time
    scale 1, statistics computed from [ps]. *)
Definition systemOf (ps : list Particle) : ParticleSystem :=
  updateStatistics (mkSystem ps (Z.of_nat (List.length ps)) 1 0 [] 0).

(** The four ways the loop body deactivates a particle, read on the
    particle as it is after the position update. *)
Definition captured (q : Particle) : bool :=
  (THREE.length (position q) <? 2)%float.

Definition escaped (q : Particle) : bool :=
  JS.gtb (THREE.length (position q)) (heliopauseRadius * 1.2)%float.

Definition expired (q : Particle) : bool := JS.gtb (age q) 100.

Definition collided (q : Particle) : bool :=
  checkPlanetaryCollision (position q).

(* ------------------------------------------------------------------------- *)
(** ** Particles and runs used in the examples

    Dust particles have charge 0, so their step calls none of the host's
    functions. *)

Definition dustAt (position velocity : Vector3) : Particle :=
  mkParticle position velocity 1000 0 DUST true false 0
             (0.5 * 1000 * THREE.lengthSq velocity * 100)%float.

(** At distance 1000, moving towards the Sun at speed 10. *)
Definition inboundDust : Particle := dustAt (vec3 1000 0 0) (vec3 (-10) 0 0).

(** At distance 1000, moving away from the Sun at speed 10. *)
Definition outboundDust : Particle := dustAt (vec3 1000 0 0) (vec3 10 0 0).

(** At the origin, with speed 3. *)
Definition originDust : Particle := dustAt (vec3 0 0 0) (vec3 3 0 0).

(** A hydrogen ion at the origin, with speed 1. *)
Definition originHydrogen : Particle :=
  mkParticle (vec3 0 0 0) (vec3 1 0 0) 1 1 HYDROGEN true false 0 50.

(** At rest, 1e-160 away from the Sun. *)
Definition nearSunDust : Particle := dustAt (vec3 1e-160 0 0) (vec3 0 0 0).

(** Inside the heliosphere, away from every planet. *)
Definition cruisingDust : Particle := dustAt (vec3 100 50 0) (vec3 1 2 3).

(** A run whose single frame of 200 time units deactivates the particles
    (they end up beyond the escape radius, and older than 100). *)
Definition expiringRun : list Call := [CallSetTimeScale 200; CallUpdate 1].

(** A host whose random values make the first particle a dust particle
    (first value 0.999) spawned on the z axis (fourth value, for [phi], 0);
    every other value is 0.5. *)
Definition polarDustHost : Host :=
  mkHost ExampleHost.sin ExampleHost.cos ExampleHost.atan2
         (fun k => match k with
                   | 0 => 0.999
                   | 3 => 0
                   | _ => 0.5
                   end%float).

(** A frame with an infinite negative step. *)
Definition rewindRun : list Call :=
  [CallSetTimeScale neg_infinity; CallUpdate 1].

Definition expiredParticle : Particle :=
  integrate ExampleHost.host 200 (fst (createParticle ExampleHost.host 0)).

(** The count of hydrogen a reader of a snapshot sees. *)
Definition hydrogenSeen
  (v : option (Stats * EnergyDistribution * ParticleTypes)) : option Z :=
  option_map (fun '(_, _, t) => hydrogen t) v.

(* ------------------------------------------------------------------------- *)
(** ** SolarSystem.ts: the gravitational field

    [getGravitationalField] adds, for the Sun and then for each planet, the
    term [toBody.normalize().multiplyScalar(G * mass / distance^2)] when the
    distance to the body is greater than 0; [None] is a skipped term. *)

Definition bodyGravity (toBody : Vector3) (bodyMass : float)
  : option Vector3 :=
  let distance := THREE.length toBody in
  if JS.gtb distance 0 then
    Some (THREE.multiplyScalar (THREE.normalize toBody)
            ((0.001 * bodyMass) / (distance * distance))%float)
  else None.

(** [toSun = new THREE.Vector3(0, 0, 0).sub(position)] *)
Definition sunGravity (position : Vector3) : option Vector3 :=
  bodyGravity (THREE.sub (vec3 0 0 0) position) SolarSystem.sunMass.

(** [toPlanet = planet.position.clone().sub(position)] *)
Definition planetGravity (position : Vector3) (planet : SolarSystem.Planet)
  : option Vector3 :=
  bodyGravity (THREE.sub (SolarSystem.position planet) position)
              (SolarSystem.mass planet).

Definition getGravitationalField (position : Vector3) : Vector3 :=
  let field := vec3 0 0 0 in
  let field := addForce field (sunGravity position) in
  fold_left (fun field planet => addForce field (planetGravity position planet))
            SolarSystem.getPlanets field.

(* ------------------------------------------------------------------------- *)
(** ** StatisticsPanel.tsx: the interval callback and its histories

    Every 100 ms, while playing, the panel takes the statistics, counts the
    call in [frameCount], and on every tenth call appends the average
    velocity, the deflected count and a time label to three arrays, of
    which it keeps the last 30 entries.  The state updaters are applied in
    the order they are queued, before the callback runs again (so the label
    reads the [frameCount] of its own run). *)

(** [array.slice(-n)] *)
Definition sliceLast {A : Type} (n : nat) (l : list A) : list A :=
  skipn (List.length l - n) l.

Record Panel : Set := mkPanel {
  shownStats : option loc;       (* [stats]; [None] is the initial literal *)
  velocityHistory : list float;
  deflectionHistory : list Z;
  timeLabels : list string;
  frameCount : nat
}.

Definition initialPanel : Panel := mkPanel None [] [] [] 0.

(** The label [`${Math.floor(frameCount.current / 10)}s`]. *)
Definition timeLabel (frameCount : nat) : string :=
  (NilZero.string_of_uint (Nat.to_uint (frameCount / 10)) ++ "s")%string.

Definition panelTick (sys : ParticleSystem) (panel : Panel)
  : option (ParticleSystem * Panel) :=
  match getStatistics sys with
  | Some (newStats, sys1) =>
      match lookup (heap sys1) newStats with
      | Some (OStats s) =>
          let frameCount := S (frameCount panel) in
          if Nat.eqb (frameCount mod 10) 0 then
            Some (sys1,
                  mkPanel (Some newStats)
                    (sliceLast 30 (velocityHistory panel ++ [averageVelocity s]))
                    (sliceLast 30
                       (deflectionHistory panel ++ [deflectedParticles s]))
                    (sliceLast 30 (timeLabels panel ++ [timeLabel frameCount]))
                    frameCount)
          else
            Some (sys1,
                  mkPanel (Some newStats) (velocityHistory panel)
                    (deflectionHistory panel) (timeLabels panel) frameCount)
      | _ => None
      end
  | None => None
  end.

(** What happens to a system and the panel that watches it: a call on the
    system, or a run of the panel's interval callback. *)
Inductive Event : Set :=
| SystemCall (c : Call)
| PanelTick.

Definition step (host : Host) (e : Event) (state : ParticleSystem * Panel)
  : option (ParticleSystem * Panel) :=
  match e with
  | SystemCall c => Some (call host c (fst state), snd state)
  | PanelTick => panelTick (fst state) (snd state)
  end.

Fixpoint runEvents (host : Host) (es : list Event)
  (state : ParticleSystem * Panel) : option (ParticleSystem * Panel) :=
  match es with
  | [] => Some state
  | e :: rest =>
      match step host e state with
      | Some state' => runEvents host rest state'
      | None => None
      end
  end.

Definition isPanelTick (e : Event) : bool :=
  match e with
  | PanelTick => true
  | SystemCall _ => false
  end.

(** A vector with a NaN coordinate. *)
Definition hasNaN (v : Vector3) : Prop :=
  THREE.x v = nan \/ THREE.y v = nan \/ THREE.z v = nan.

(** What the model keeps fixed for each particle type: the mass and charge
    [createParticle] gives hydrogen and helium, and for dust the charge 0
    and, with it, a [deflected] flag that is never set. *)
Definition typeConsistent (p : Particle) : Prop :=
  match type p with
  | HYDROGEN => mass p = 1%float /\ charge p = 1%float
  | HELIUM => mass p = 4%float /\ charge p = 2%float
  | HEAVY_ION => True
  | DUST => charge p = 0%float /\ deflected p = false
  end.

(** A deflected hydrogen ion at the origin, with speed 1. *)
Definition deflectedOriginHydrogen : Particle :=
  mkParticle (vec3 0 0 0) (vec3 1 0 0) 1 1 HYDROGEN true true 0 50.

(** A deflected hydrogen ion inside the heliosphere. *)
Definition deflectedHydrogen : Particle :=
  mkParticle (vec3 100 50 0) (vec3 1 2 3) 1 1 HYDROGEN true true 0 700.

(** Dust whose x coordinate is NaN. *)
Definition nanDust : Particle := dustAt (vec3 nan 0 0) (vec3 0 0 0).

(** A panel that has run its callback nine times. *)
Definition ninthFramePanel : Panel := mkPanel None [] [] [] 9.

(* ========================================================================= *)
(** * Properties *)

(* ------------------------------------------------------------------------- *)
(** ** The collision table and the catalog *)

(** C3, as the code has it: the collision table lists the catalog's eight
    planets in the catalog's order and at the catalog's positions, and each
    of its radii is strictly larger than the catalog radius of that planet
    (so no radius is the same). *)
Theorem collision_table_positions_match_radii_larger :
  Forall2
    (fun entry planet =>
       pos entry = SolarSystem.position planet
       /\ (SolarSystem.radius planet <? radius entry)%float = true)
    planetPositions SolarSystem.getPlanets.
Proof.
  unfold planetPositions, SolarSystem.getPlanets, SolarSystem.initializePlanets.
  repeat (constructor; [split; [reflexivity | vm_compute; reflexivity] | ]).
  constructor.
Qed.

(** C3 fails on the radii: the first entry (Mercury) has radius 0.5 in the
    collision table and 0.3 in the catalog. *)
Lemma collision_table_radius_differs :
  exists entry planet,
    nth_error planetPositions 0 = Some entry
    /\ nth_error SolarSystem.getPlanets 0 = Some planet
    /\ pos entry = SolarSystem.position planet
    /\ radius entry = 0.5%float
    /\ SolarSystem.radius planet = 0.3%float
    /\ (radius entry =? SolarSystem.radius planet)%float = false.
Proof.
  do 2 eexists.
  split; [reflexivity | ].
  split; [reflexivity | ].
  repeat split; vm_compute; reflexivity.
Qed.

(* ------------------------------------------------------------------------- *)
(** ** The render buffers *)

Lemma Float32Array_set_app (pre : Float32Array) (c v : float)
  (rest : Float32Array) :
  Float32Array_set (List.length pre) v (pre ++ c :: rest)
  = pre ++ JS.fround v :: rest.
Proof.
  induction pre as [| d pre IH]; simpl.
  - reflexivity.
  - now rewrite IH.
Qed.

Lemma Float32Array_set_at (i : nat) (pre : Float32Array) (c v : float)
  (rest : Float32Array) :
  List.length pre = i ->
  Float32Array_set i v (pre ++ c :: rest) = pre ++ JS.fround v :: rest.
Proof. intros <-. apply Float32Array_set_app. Qed.

(** The loop fills the zeroed tail of the buffer with one rounded triplet
    per particle, in order. *)
Lemma writeTriplets_fills (triplet : Particle -> float * float * float)
  (ps : list Particle) :
  forall (i : nat) (pre : Float32Array),
    List.length pre = i * 3 ->
    writeTriplets triplet i ps (pre ++ Float32Array_new (List.length ps * 3))
    = pre ++ flat_map (storedTriplet triplet) ps.
Proof.
  induction ps as [| p ps IH]; intros i pre Hlen.
  - reflexivity.
  - cbn [writeTriplets flat_map List.length].
    unfold storedTriplet at 1.
    destruct (triplet p) as [[a b] c].
    change (Float32Array_new (S (List.length ps) * 3))
      with (0%float :: 0%float :: 0%float
              :: Float32Array_new (List.length ps * 3)).
    rewrite (Float32Array_set_at (i * 3)) by exact Hlen.
    replace (pre ++ JS.fround a :: 0%float :: 0%float
               :: Float32Array_new (List.length ps * 3))
      with ((pre ++ [JS.fround a]) ++ 0%float :: 0%float
               :: Float32Array_new (List.length ps * 3))
      by (now rewrite <- app_assoc).
    rewrite (Float32Array_set_at (i * 3 + 1))
      by (rewrite length_app; simpl; lia).
    replace ((pre ++ [JS.fround a]) ++ JS.fround b :: 0%float
               :: Float32Array_new (List.length ps * 3))
      with ((pre ++ [JS.fround a; JS.fround b]) ++ 0%float
               :: Float32Array_new (List.length ps * 3))
      by (now rewrite <- !app_assoc).
    rewrite (Float32Array_set_at (i * 3 + 2))
      by (rewrite length_app; simpl; lia).
    replace ((pre ++ [JS.fround a; JS.fround b]) ++ JS.fround c
               :: Float32Array_new (List.length ps * 3))
      with ((pre ++ [JS.fround a; JS.fround b; JS.fround c])
               ++ Float32Array_new (List.length ps * 3))
      by (now rewrite <- !app_assoc).
    rewrite IH by (rewrite length_app; simpl; lia).
    now rewrite <- app_assoc.
Qed.

Lemma getPositions_flat (sys : ParticleSystem) :
  getPositions sys = flat_map (storedTriplet positionTriplet) (particles sys).
Proof.
  unfold getPositions.
  apply (writeTriplets_fills positionTriplet (particles sys) 0 []).
  reflexivity.
Qed.

Lemma getColors_flat (sys : ParticleSystem) :
  getColors sys = flat_map (storedTriplet colorTriplet) (particles sys).
Proof.
  unfold getColors.
  apply (writeTriplets_fills colorTriplet (particles sys) 0 []).
  reflexivity.
Qed.

Lemma storedTriplet_length (triplet : Particle -> float * float * float)
  (p : Particle) :
  List.length (storedTriplet triplet p) = 3.
Proof. unfold storedTriplet. now destruct (triplet p) as [[a b] c]. Qed.

Lemma flat_triplets_length (triplet : Particle -> float * float * float)
  (ps : list Particle) :
  List.length (flat_map (storedTriplet triplet) ps) = 3 * List.length ps.
Proof.
  induction ps as [| p ps IH]; simpl.
  - reflexivity.
  - rewrite length_app, storedTriplet_length, IH. lia.
Qed.

(** Triplet [i] of a buffer is the stored triplet of particle [i]. *)
Lemma flat_triplets_nth (triplet : Particle -> float * float * float)
  (ps : list Particle) :
  forall (i : nat) (p : Particle),
    nth_error ps i = Some p ->
    firstn 3 (skipn (3 * i) (flat_map (storedTriplet triplet) ps))
    = storedTriplet triplet p.
Proof.
  induction ps as [| q ps IH]; intros i p Hi.
  - destruct i; discriminate.
  - destruct i as [| i]; simpl in Hi.
    + injection Hi as ->. simpl.
      unfold storedTriplet. now destruct (triplet p) as [[a b] c].
    + replace (3 * S i) with (3 * i + 3) by lia.
      cbn [flat_map].
      rewrite <- skipn_skipn.
      assert (Hq : skipn 3 (storedTriplet triplet q
                            ++ flat_map (storedTriplet triplet) ps)
                   = flat_map (storedTriplet triplet) ps).
      { unfold storedTriplet. now destruct (triplet q) as [[a b] c]. }
      rewrite Hq. now apply IH.
Qed.

Definition inColorRange (v : float) : bool :=
  ((0 <=? v) && (v <=? 1.44))%float.

Lemma storedTriplet_color_in_range (p : Particle) :
  Forall (fun v => inColorRange v = true) (storedTriplet colorTriplet p).
Proof.
  destruct p as [ps vl m c ty a d ag en].
  destruct a, ty, d;
    repeat constructor; vm_compute; reflexivity.
Qed.

(** C9: [getColors] holds one triplet per particle, the triplet being black
    for an inactive particle, the fixed colour of its type for an active
    one, and that colour with every channel multiplied by 1.2 when the
    particle is also deflected; every value of the buffer lies between 0
    and 1.44. *)
Theorem getColors_fixed_type_colors (sys : ParticleSystem) :
  getColors sys = flat_map (storedTriplet colorTriplet) (particles sys)
  /\ (forall ps vl m c ty d ag en,
         colorTriplet (mkParticle ps vl m c ty false d ag en)
         = (0, 0, 0)%float)
  /\ (forall ps vl m c ag en,
         colorTriplet (mkParticle ps vl m c HYDROGEN true false ag en)
         = (0.4, 0.5, 0.9)%float
         /\ colorTriplet (mkParticle ps vl m c HELIUM true false ag en)
            = (0.9, 0.3, 0.6)%float
         /\ colorTriplet (mkParticle ps vl m c HEAVY_ION true false ag en)
            = (0.1, 0.9, 0.5)%float
         /\ colorTriplet (mkParticle ps vl m c DUST true false ag en)
            = (1.0, 0.6, 0.1)%float)
  /\ (forall ps vl m c ty ag en,
         colorTriplet (mkParticle ps vl m c ty true true ag en)
         = (let '(r, g, b) :=
              colorTriplet (mkParticle ps vl m c ty true false ag en) in
            (r * 1.2, g * 1.2, b * 1.2))%float)
  /\ Forall (fun v => inColorRange v = true) (getColors sys).
Proof.
  split; [apply getColors_flat | ].
  split; [reflexivity | ].
  split; [intros; repeat split | ].
  split; [intros ps vl m c ty ag en; now destruct ty | ].
  rewrite getColors_flat.
  induction (particles sys) as [| p ps IH]; simpl.
  - constructor.
  - apply Forall_app. split; [apply storedTriplet_color_in_range | exact IH].
Qed.

(* ------------------------------------------------------------------------- *)
(** ** Statistics *)

Local Open Scope Z_scope.

Definition typesSum (t : ParticleTypes) : Z :=
  hydrogen t + helium t + ions t + dust t.

(** What the counting loop maintains, [n] being the number of particles
    counted so far. *)
Definition countersSound (c : Counters.t) (n : Z) : Prop :=
  Counters.activeCount c + Counters.capturedCount c = n
  /\ typesSum (Counters.types c) = Counters.activeCount c
  /\ 0 <= Counters.deflectedCount c <= Counters.activeCount c.

Lemma countType_sum (ty : ParticleType) (t : ParticleTypes) :
  typesSum (countType ty t) = typesSum t + 1.
Proof. destruct ty; unfold typesSum; simpl; lia. Qed.

Lemma countParticle_sound (c : Counters.t) (n : Z) (p : Particle) :
  countersSound c n -> countersSound (countParticle c p) (n + 1).
Proof.
  unfold countersSound, countParticle.
  intros (Hn & Ht & Hd).
  destruct (active p); cbn [Counters.activeCount Counters.capturedCount
                            Counters.types Counters.deflectedCount].
  - rewrite countType_sum. destruct (deflected p); lia.
  - lia.
Qed.

Lemma fold_countParticle_sound (ps : list Particle) :
  forall (c : Counters.t) (n : Z),
    countersSound c n ->
    countersSound (fold_left countParticle ps c)
                  (n + Z.of_nat (List.length ps)).
Proof.
  induction ps as [| p ps IH]; intros c n Hc.
  - simpl. now rewrite Z.add_0_r.
  - cbn [fold_left List.length].
    replace (n + Z.of_nat (S (List.length ps)))
      with ((n + 1) + Z.of_nat (List.length ps)) by lia.
    apply IH. now apply countParticle_sound.
Qed.

Lemma countParticles_sound (ps : list Particle) :
  countersSound (countParticles ps) (Z.of_nat (List.length ps)).
Proof.
  apply (fold_countParticle_sound ps initialCounters 0).
  unfold countersSound, initialCounters, typesSum. simpl. lia.
Qed.

(** Heap facts: a new object is found where [alloc] put it, and older
    objects stay where they were. *)
Lemma lookup_new (h : Heap) (o : Obj) :
  lookup (h ++ [o]) (List.length h) = Some o.
Proof.
  unfold lookup. rewrite nth_error_app2 by lia.
  now rewrite Nat.sub_diag.
Qed.

Lemma lookup_old (h h' : Heap) (l : loc) :
  (l < List.length h)%nat -> lookup (h ++ h') l = lookup h l.
Proof. intros Hl. unfold lookup. now apply nth_error_app1. Qed.

Ltac heap_length := rewrite ?length_app; simpl; lia.

(** The snapshot [updateStatistics] stores holds the loop's counters. *)
Lemma storedStatistics_updateStatistics (sys : ParticleSystem) :
  let c := countParticles (particles sys) in
  exists s,
    storedStatistics (updateStatistics sys)
    = Some (s, Counters.energy c, Counters.types c)
    /\ totalParticles s = Z.of_nat (List.length (particles sys))
    /\ activeParticles s = Counters.activeCount c
    /\ deflectedParticles s = Counters.deflectedCount c
    /\ capturedParticles s = Counters.capturedCount c
    /\ averageVelocity s
       = (if 0 <? Counters.activeCount c
          then (Counters.totalVelocity c
                / JS.of_count (Counters.activeCount c))%float
          else 0%float).
Proof.
  intros c. eexists.
  split.
  - unfold storedStatistics, updateStatistics, snapshotAt, alloc.
    fold c. cbn [heap stats].
    rewrite lookup_new. cbn [energyDistribution particleTypes].
    rewrite (lookup_old _ [_]) by heap_length.
    rewrite lookup_new.
    rewrite (lookup_old _ [_]) by heap_length.
    rewrite (lookup_old _ [_]) by heap_length.
    rewrite lookup_new.
    reflexivity.
  - cbn. repeat split; reflexivity.
Qed.

(** The three relations between the counts of a stored snapshot. *)
Definition snapshotSound (sys : ParticleSystem) : Prop :=
  exists s e t,
    storedStatistics sys = Some (s, e, t)
    /\ totalParticles s = Z.of_nat (List.length (particles sys))
    /\ activeParticles s + capturedParticles s = totalParticles s
    /\ typesSum t = activeParticles s
    /\ 0 <= deflectedParticles s <= activeParticles s.

Lemma particles_updateStatistics (sys : ParticleSystem) :
  particles (updateStatistics sys) = particles sys.
Proof. reflexivity. Qed.

Lemma updateStatistics_sound (sys : ParticleSystem) :
  snapshotSound (updateStatistics sys).
Proof.
  destruct (storedStatistics_updateStatistics sys)
    as (s & Hs & Htot & Hact & Hdef & Hcap & _).
  destruct (countParticles_sound (particles sys)) as (Hn & Ht & Hd).
  exists s, (Counters.energy (countParticles (particles sys))),
    (Counters.types (countParticles (particles sys))).
  rewrite particles_updateStatistics.
  repeat split; try assumption; lia.
Qed.

Local Close Scope Z_scope.

(* ------------------------------------------------------------------------- *)
(** ** Arithmetic with a zero step

    The facts about IEEE addition and multiplication that a step [dt = 0]
    rests on, read off the specification of the primitive operations. *)

Lemma mul_zero_of_finite (y : float) :
  isFinite y = true -> exists s, Prim2SF (y * 0)%float = S754_zero s.
Proof.
  unfold isFinite. intros Hy.
  rewrite mul_spec.
  change (Prim2SF 0%float) with (S754_zero false).
  destruct (Prim2SF y); try discriminate; eexists; reflexivity.
Qed.

Lemma add_zero_same (a z : float) (s : bool) :
  Prim2SF z = S754_zero s -> sameNumber a (a + z)%float.
Proof.
  intros Hz.
  assert (Hsum : Prim2SF (a + z)%float = SFadd prec emax (Prim2SF a) (S754_zero s)).
  { now rewrite add_spec, Hz. }
  unfold sameNumber.
  destruct (Prim2SF a) as [sa | sa | | sa m e] eqn:Ha.
  - destruct sa, s; cbn in Hsum.
    + left. apply Prim2SF_inj. congruence.
    + right. split; apply Prim2SF_inj.
      * rewrite Ha. reflexivity.
      * rewrite Hsum. reflexivity.
    + left. apply Prim2SF_inj. congruence.
    + left. apply Prim2SF_inj. congruence.
  - left. apply Prim2SF_inj. cbn in Hsum. congruence.
  - left. apply Prim2SF_inj. cbn in Hsum. congruence.
  - left. apply Prim2SF_inj. cbn in Hsum. congruence.
Qed.

(** [a + y * 0] is [a] when [y] is finite. *)
Lemma zero_step_same (a y : float) :
  isFinite y = true -> sameNumber a (a + y * 0)%float.
Proof.
  intros Hy. destruct (mul_zero_of_finite y Hy) as (s & Hs).
  exact (add_zero_same a _ s Hs).
Qed.

Lemma sameNumber_finite (a b : float) :
  sameNumber a b -> isFinite a = true -> isFinite b = true.
Proof. intros [-> | (_ & ->)] Ha; [exact Ha | reflexivity]. Qed.

Lemma finiteVector_components (v : Vector3) :
  finiteVector v = true ->
  isFinite (THREE.x v) = true
  /\ isFinite (THREE.y v) = true
  /\ isFinite (THREE.z v) = true.
Proof.
  unfold finiteVector. intros H.
  apply andb_prop in H. destruct H as (H & Hz).
  apply andb_prop in H. destruct H as (Hx & Hy).
  now repeat split.
Qed.

(** [a.add(b.multiplyScalar(0))] is [a] when [b] is finite. *)
Lemma zero_step_sameVector (a b : Vector3) :
  finiteVector b = true ->
  sameVector a (THREE.add a (THREE.multiplyScalar b 0)).
Proof.
  intros Hb. apply finiteVector_components in Hb.
  destruct Hb as (Hx & Hy & Hz).
  unfold sameVector, THREE.add, THREE.multiplyScalar. cbn [THREE.x THREE.y THREE.z].
  repeat split; now apply zero_step_same.
Qed.

Lemma sameVector_finite (a b : Vector3) :
  sameVector a b -> finiteVector a = true -> finiteVector b = true.
Proof.
  intros (Hx & Hy & Hz) Ha. apply finiteVector_components in Ha.
  destruct Ha as (Fx & Fy & Fz).
  unfold finiteVector.
  rewrite (sameNumber_finite _ _ Hx Fx), (sameNumber_finite _ _ Hy Fy),
    (sameNumber_finite _ _ Hz Fz).
  reflexivity.
Qed.

(* ------------------------------------------------------------------------- *)
(** ** Spawning, the update loop and the calls *)

Section Properties.

Variable host : Host.

(** A new particle is active, not deflected and of age 0. *)
Lemma createParticle_fresh (k : nat) :
  let p := fst (createParticle host k) in
  active p = true /\ deflected p = false /\ age p = 0%float.
Proof.
  unfold createParticle, bind, random, ret.
  repeat match goal with
         | |- context [if ?b then _ else _] => destruct b
         end;
    repeat split; reflexivity.
Qed.

Lemma spawn_length (n : nat) :
  forall k, List.length (fst (spawn host n k)) = n.
Proof.
  induction n as [| n IH]; intros k.
  - reflexivity.
  - cbn [spawn]. unfold bind, ret.
    destruct (createParticle host k) as [p k1].
    specialize (IH k1).
    destruct (spawn host n k1) as [rest k2].
    simpl in *. now rewrite IH.
Qed.

Lemma spawn_active (n : nat) :
  forall k, Forall (fun p => active p = true) (fst (spawn host n k)).
Proof.
  induction n as [| n IH]; intros k.
  - constructor.
  - cbn [spawn]. unfold bind, ret.
    pose proof (createParticle_fresh k) as Hp.
    destruct (createParticle host k) as [p k1].
    specialize (IH k1).
    destruct (spawn host n k1) as [rest k2].
    simpl in *. constructor; [apply Hp | exact IH].
Qed.

Lemma updateParticles_length (dt : float) (ps : list Particle) :
  forall k,
    List.length (fst (updateParticles host dt ps k)) = List.length ps.
Proof.
  induction ps as [| p ps IH]; intros k.
  - reflexivity.
  - cbn [updateParticles]. unfold bind, ret.
    destruct (updateParticle host dt p k) as [p' k1].
    specialize (IH k1).
    destruct (updateParticles host dt ps k1) as [rest k2].
    simpl in *. now rewrite IH.
Qed.

(** Slot [i] after the loop is the loop body applied to slot [i]. *)
Lemma updateParticles_nth (dt : float) (ps : list Particle) :
  forall k i p,
    nth_error ps i = Some p ->
    exists k',
      nth_error (fst (updateParticles host dt ps k)) i
      = Some (fst (updateParticle host dt p k')).
Proof.
  induction ps as [| q ps IH]; intros k i p Hi.
  - destruct i; discriminate.
  - cbn [updateParticles]. unfold bind, ret.
    destruct (updateParticle host dt q k) as [q' k1] eqn:Hq.
    specialize (IH k1).
    destruct (updateParticles host dt ps k1) as [rest k2].
    destruct i as [| i]; simpl in Hi |- *.
    + injection Hi as <-. exists k. now rewrite Hq.
    + now apply IH.
Qed.

Lemma updateParticles_nth_inv (dt : float) (ps : list Particle) (k i : nat)
  (p' : Particle) :
  nth_error (fst (updateParticles host dt ps k)) i = Some p' ->
  exists p k',
    nth_error ps i = Some p /\ p' = fst (updateParticle host dt p k').
Proof.
  intros Hi.
  assert (Hlt : i < List.length ps).
  { rewrite <- (updateParticles_length dt ps k).
    apply nth_error_Some. now rewrite Hi. }
  destruct (nth_error ps i) as [p |] eqn:Hp.
  - destruct (updateParticles_nth dt ps k i p Hp) as (k' & Hk').
    exists p, k'. split; [reflexivity | ]. congruence.
  - apply nth_error_None in Hp. lia.
Qed.

Lemma particles_update (deltaTime : float) (sys : ParticleSystem) :
  particles (update host deltaTime sys)
  = fst (updateParticles host (deltaTime * timeScale sys)
                         (particles sys) (drawn sys)).
Proof.
  unfold update.
  now destruct (updateParticles host (deltaTime * timeScale sys)
                                (particles sys) (drawn sys)).
Qed.

Lemma particles_initializeParticles (sys : ParticleSystem) :
  particles (initializeParticles host sys)
  = fst (spawn host (Z.to_nat (maxParticles sys)) (drawn sys)).
Proof.
  unfold initializeParticles.
  now destruct (spawn host (Z.to_nat (maxParticles sys)) (drawn sys)).
Qed.

Lemma maxParticles_call (c : Call) (sys : ParticleSystem) :
  maxParticles (call host c sys) = maxParticles sys.
Proof.
  destruct c; cbn [call]; unfold update, reset, initializeParticles.
  - now destruct (updateParticles host _ _ _).
  - reflexivity.
  - now destruct (spawn host _ _).
Qed.

(** Every call ends by recomputing the statistics, except [setTimeScale],
    which touches neither the particles nor the statistics. *)
Lemma call_recomputes (c : Call) (sys : ParticleSystem) :
  (exists sys', call host c sys = updateStatistics sys')
  \/ (particles (call host c sys) = particles sys
      /\ storedStatistics (call host c sys) = storedStatistics sys).
Proof.
  destruct c; cbn [call]; unfold update, reset, initializeParticles.
  - left. destruct (updateParticles host _ _ _). now eexists.
  - right. split; reflexivity.
  - left. destruct (spawn host _ _). now eexists.
Qed.

Lemma new_recomputes (n : Z) :
  exists sys', new host n = updateStatistics sys'.
Proof.
  unfold new, initializeParticles, alloc. cbn [maxParticles drawn].
  destruct (spawn host _ _). now eexists.
Qed.

Lemma run_snoc (cs : list Call) (c : Call) (sys : ParticleSystem) :
  run host (cs ++ [c]) sys = call host c (run host cs sys).
Proof. unfold run. now rewrite fold_left_app. Qed.

Lemma run_sound (cs : list Call) (n : Z) :
  snapshotSound (run host cs (new host n)).
Proof.
  induction cs as [| c cs IH] using rev_ind.
  - destruct (new_recomputes n) as (sys' & ->). apply updateStatistics_sound.
  - rewrite run_snoc.
    destruct (call_recomputes c (run host cs (new host n)))
      as [(sys' & ->) | (Hp & Hs)].
    + apply updateStatistics_sound.
    + unfold snapshotSound in *. now rewrite Hp, Hs.
Qed.

(** C2: in the snapshot [updateStatistics] stores (for any particles), and
    so in the snapshot held after construction and after any calls of
    [update], [setTimeScale] and [reset], the active and captured counts
    add up to the total and the four per-type counts add up to the active
    count. *)
Theorem statistics_counts_add_up :
  (forall sys : ParticleSystem,
      exists s e t,
        storedStatistics (updateStatistics sys) = Some (s, e, t)
        /\ (activeParticles s + capturedParticles s = totalParticles s)%Z
        /\ (hydrogen t + helium t + ions t + dust t = activeParticles s)%Z)
  /\ (forall (n : Z) (cs : list Call),
         exists s e t,
           storedStatistics (run host cs (new host n)) = Some (s, e, t)
           /\ (activeParticles s + capturedParticles s = totalParticles s)%Z
           /\ (hydrogen t + helium t + ions t + dust t
               = activeParticles s)%Z).
Proof.
  split.
  - intros sys.
    destruct (updateStatistics_sound sys) as (s & e & t & Hs & _ & Ha & Ht & _).
    now exists s, e, t.
  - intros n cs.
    destruct (run_sound cs n) as (s & e & t & Hs & _ & Ha & Ht & _).
    now exists s, e, t.
Qed.

(** The particle array keeps the length [maxParticles] asked for at
    construction (none for a negative [maxParticles]). *)
Lemma particles_new (n : Z) :
  particles (new host n) = fst (spawn host (Z.to_nat n) 0).
Proof.
  unfold new, alloc.
  now rewrite particles_initializeParticles.
Qed.

Lemma maxParticles_new (n : Z) : maxParticles (new host n) = n.
Proof.
  unfold new, alloc, initializeParticles. cbn [maxParticles drawn].
  now destruct (spawn host _ _).
Qed.

Lemma call_length (c : Call) (sys : ParticleSystem) :
  List.length (particles sys) = Z.to_nat (maxParticles sys) ->
  List.length (particles (call host c sys)) = Z.to_nat (maxParticles sys).
Proof.
  intros Hlen. destruct c; cbn [call].
  - now rewrite particles_update, updateParticles_length.
  - exact Hlen.
  - unfold reset. now rewrite particles_initializeParticles, spawn_length.
Qed.

Lemma run_length (cs : list Call) (n : Z) :
  let sys := run host cs (new host n) in
  maxParticles sys = n /\ List.length (particles sys) = Z.to_nat n.
Proof.
  induction cs as [| c cs IH] using rev_ind; cbn zeta.
  - split; [apply maxParticles_new | ].
    cbn [run fold_left]. now rewrite particles_new, spawn_length.
  - rewrite run_snoc. cbn zeta in IH. destruct IH as (Hmax & Hlen).
    split.
    + now rewrite maxParticles_call.
    + pose proof (call_length c (run host cs (new host n))) as Hc.
      rewrite Hmax in Hc. now apply Hc.
Qed.

(** C8: after construction with [maxParticles = n] (not negative) and any
    calls of [update], [setTimeScale] and [reset], both buffers have
    [3 * n] values, and the three values from index [3 * i] on are those of
    particle [i] (its coordinates, resp. its colour, as binary32 values).
    Constructed with 0, the system has an empty position buffer, and
    [getStatistics] reads a total of 0 and an average velocity of 0. *)
Theorem buffers_hold_three_values_per_particle (n : Z) (cs : list Call) :
  (0 <= n)%Z ->
  let sys := run host cs (new host n) in
  Z.of_nat (List.length (getPositions sys)) = (3 * n)%Z
  /\ Z.of_nat (List.length (getColors sys)) = (3 * n)%Z
  /\ (forall i p,
         nth_error (particles sys) i = Some p ->
         firstn 3 (skipn (3 * i) (getPositions sys))
         = [JS.fround (THREE.x (position p));
            JS.fround (THREE.y (position p));
            JS.fround (THREE.z (position p))]
         /\ firstn 3 (skipn (3 * i) (getColors sys))
            = storedTriplet colorTriplet p)
  /\ getPositions (new host 0) = []
  /\ (exists copy sys1 s e t,
         getStatistics (new host 0) = Some (copy, sys1)
         /\ snapshotAt (heap sys1) copy = Some (s, e, t)
         /\ totalParticles s = 0%Z
         /\ averageVelocity s = 0%float).
Proof.
  intros Hn sys.
  destruct (run_length cs n) as (_ & Hlen). fold sys in Hlen.
  rewrite getPositions_flat, getColors_flat, !flat_triplets_length, Hlen.
  split; [lia | ]. split; [lia | ].
  split.
  - intros i p Hi. split.
    + now rewrite (flat_triplets_nth positionTriplet _ i p Hi).
    + now apply flat_triplets_nth.
  - split; [reflexivity | ].
    do 5 eexists. split; [reflexivity | ].
    split; [reflexivity | ]. split; reflexivity.
Qed.

(* ------------------------------------------------------------------------- *)
(** ** Deactivation and respawn *)

(** One of the four deactivation tests holds of the particle as [advance]
    leaves it. *)
Definition deactivates (dt : float) (p : Particle) : bool :=
  let q := advance host dt p in
  captured q || escaped q || expired q || collided q.

Lemma active_advance (dt : float) (p : Particle) :
  active (advance host dt p) = active p.
Proof.
  unfold advance, markDeflected.
  destruct (lorentzForce host _) as [f |]; [ | reflexivity].
  now destruct (JS.gtb _ _).
Qed.

(** The two checks change nothing but [active], and only to [false]. *)
Lemma active_integrate (dt : float) (p : Particle) :
  active (integrate host dt p)
  = active (advance host dt p) && negb (deactivates dt p).
Proof.
  unfold integrate, deactivates, checkCollision, checkBoundaries,
    captured, escaped, expired, collided.
  cbn zeta.
  destruct (THREE.length (position (advance host dt p)) <? 2)%float;
    destruct (JS.gtb (THREE.length (position (advance host dt p))) _);
    destruct (JS.gtb (age (advance host dt p)) 100);
    cbn [position set_active];
    destruct (checkPlanetaryCollision (position (advance host dt p)));
    cbn [active orb negb andb];
    now rewrite ?andb_true_r, ?andb_false_r.
Qed.

Lemma updateParticle_inactive (dt : float) (p : Particle) (k : nat) :
  active p = false ->
  updateParticle host dt p k = createParticle host k.
Proof. intros H. unfold updateParticle. now rewrite H. Qed.

Lemma updateParticle_active (dt : float) (p : Particle) (k : nat) :
  active p = true ->
  updateParticle host dt p k = (integrate host dt p, k).
Proof. intros H. unfold updateParticle. now rewrite H. Qed.

(** A slot that is inactive after the loop body held an active particle
    which one of the four tests deactivated. *)
Lemma updateParticle_deactivated (dt : float) (p : Particle) (k : nat) :
  active (fst (updateParticle host dt p k)) = false ->
  active p = true
  /\ fst (updateParticle host dt p k) = integrate host dt p
  /\ deactivates dt p = true.
Proof.
  destruct (active p) eqn:Hp.
  - rewrite updateParticle_active by exact Hp. cbn [fst].
    rewrite active_integrate, active_advance, Hp. cbn [andb].
    intros H. repeat split. now destruct (deactivates dt p).
  - rewrite updateParticle_inactive by exact Hp.
    intros H. pose proof (createParticle_fresh k) as (Ha & _).
    cbn zeta in Ha. congruence.
Qed.

Lemma Forall_active_nth (ps : list Particle) (i : nat) (p : Particle) :
  Forall (fun q => active q = true) ps ->
  nth_error ps i = Some p ->
  active p = true.
Proof.
  intros Hall Hi. rewrite Forall_forall in Hall.
  apply Hall. eapply nth_error_In. exact Hi.
Qed.

Definition isSetTimeScale (c : Call) : Prop :=
  exists scale, c = CallSetTimeScale scale.

(** An inactive particle of a system built by construction and calls was
    deactivated by the latest [update], and only [setTimeScale] calls
    followed. *)
Lemma inactive_history (n : Z) (cs : list Call) :
  forall (i : nat) (p : Particle),
    nth_error (particles (run host cs (new host n))) i = Some p ->
    active p = false ->
    exists cs1 deltaTime cs2 p0,
      cs = cs1 ++ CallUpdate deltaTime :: cs2
      /\ Forall isSetTimeScale cs2
      /\ nth_error (particles (run host cs1 (new host n))) i = Some p0
      /\ active p0 = true
      /\ p = integrate host
               (deltaTime * timeScale (run host cs1 (new host n))) p0
      /\ deactivates
           (deltaTime * timeScale (run host cs1 (new host n))) p0 = true.
Proof.
  induction cs as [| c cs IH] using rev_ind; intros i p Hi Hp.
  - cbn [run fold_left] in Hi. rewrite particles_new in Hi.
    pose proof (Forall_active_nth _ i p (spawn_active _ _) Hi). congruence.
  - rewrite run_snoc in Hi. destruct c as [deltaTime | scale | ].
    + cbn [call] in Hi. rewrite particles_update in Hi.
      apply updateParticles_nth_inv in Hi.
      destruct Hi as (p0 & k & Hp0 & ->).
      apply updateParticle_deactivated in Hp.
      destruct Hp as (Ha & Heq & Hd).
      exists cs, deltaTime, [], p0.
      repeat split; try assumption. constructor.
    + cbn [call] in Hi. change (particles (setTimeScale scale ?s))
        with (particles s) in Hi.
      destruct (IH i p Hi Hp) as (cs1 & d & cs2 & p0 & -> & Hs & H0 & Ha & He & Hd).
      exists cs1, d, (cs2 ++ [CallSetTimeScale scale]), p0.
      split; [now rewrite <- app_assoc | ].
      split; [ | now repeat split].
      apply Forall_app. split; [exact Hs | ].
      constructor; [now exists scale | constructor].
    + cbn [call] in Hi. unfold reset in Hi.
      rewrite particles_initializeParticles in Hi.
      pose proof (Forall_active_nth _ i p (spawn_active _ _) Hi). congruence.
Qed.

(** The next [update] overwrites an inactive slot with a new particle. *)
Lemma update_respawns (deltaTime : float) (sys : ParticleSystem) (i : nat)
  (p : Particle) :
  nth_error (particles sys) i = Some p ->
  active p = false ->
  exists k,
    nth_error (particles (update host deltaTime sys)) i
    = Some (fst (createParticle host k)).
Proof.
  intros Hi Hp. rewrite particles_update.
  destruct (updateParticles_nth (deltaTime * timeScale sys) (particles sys)
              (drawn sys) i p Hi) as (k & Hk).
  exists k. now rewrite Hk, updateParticle_inactive.
Qed.

(** C1: a particle that is inactive when [update] is called (in a system
    built by construction and calls) was active before the latest [update],
    which deactivated it by capture, escape, age or collision; and the
    [update] now called leaves in its slot a particle just made by
    [createParticle] (not integrated, not checked), which is active, not
    deflected and of age 0. *)
Theorem inactive_particle_is_respawned_by_next_update (n : Z)
  (cs : list Call) (deltaTime : float) (i : nat) (p : Particle) :
  nth_error (particles (run host cs (new host n))) i = Some p ->
  active p = false ->
  (exists cs1 deltaTime0 cs2 p0,
      cs = cs1 ++ CallUpdate deltaTime0 :: cs2
      /\ Forall isSetTimeScale cs2
      /\ nth_error (particles (run host cs1 (new host n))) i = Some p0
      /\ active p0 = true
      /\ p = integrate host
               (deltaTime0 * timeScale (run host cs1 (new host n))) p0
      /\ (let q := advance host
                     (deltaTime0 * timeScale (run host cs1 (new host n)))
                     p0 in
          captured q || escaped q || expired q || collided q = true))
  /\ (exists k p',
         p' = fst (createParticle host k)
         /\ nth_error
              (particles (update host deltaTime (run host cs (new host n)))) i
            = Some p'
         /\ active p' = true
         /\ deflected p' = false
         /\ age p' = 0%float).
Proof.
  intros Hi Hp. split.
  - exact (inactive_history n cs i p Hi Hp).
  - destruct (update_respawns deltaTime _ i p Hi Hp) as (k & Hk).
    exists k, (fst (createParticle host k)).
    split; [reflexivity | ]. split; [exact Hk | ].
    apply createParticle_fresh.
Qed.

(* ------------------------------------------------------------------------- *)
(** ** The step of an active particle *)

(** [update] applies the loop body for active particles to an active slot. *)
Lemma update_integrates (deltaTime : float) (sys : ParticleSystem) (i : nat)
  (p : Particle) :
  nth_error (particles sys) i = Some p ->
  active p = true ->
  nth_error (particles (update host deltaTime sys)) i
  = Some (integrate host (deltaTime * timeScale sys) p).
Proof.
  intros Hi Hp. rewrite particles_update.
  destruct (updateParticles_nth (deltaTime * timeScale sys) (particles sys)
              (drawn sys) i p Hi) as (k & Hk).
  now rewrite Hk, updateParticle_active.
Qed.

Lemma age_advance (dt : float) (p : Particle) :
  age (advance host dt p) = (age p + dt)%float.
Proof.
  unfold advance, markDeflected.
  destruct (lorentzForce host _) as [f |]; [ | reflexivity].
  now destruct (JS.gtb _ _).
Qed.

Lemma velocity_advance (dt : float) (p : Particle) :
  velocity (advance host dt p)
  = THREE.add (velocity p)
              (THREE.multiplyScalar (acceleration host p) dt).
Proof.
  unfold advance, markDeflected.
  destruct (lorentzForce host _) as [f |]; [ | reflexivity].
  now destruct (JS.gtb _ _).
Qed.

Lemma position_advance (dt : float) (p : Particle) :
  position (advance host dt p)
  = THREE.add (position p)
              (THREE.multiplyScalar (velocity (advance host dt p)) dt).
Proof.
  unfold advance, markDeflected.
  destruct (lorentzForce host _) as [f |]; [ | reflexivity].
  now destruct (JS.gtb _ _).
Qed.

(** The checks leave everything but [active] as [advance] computed it. *)
Lemma integrate_keeps_motion (dt : float) (p : Particle) :
  position (integrate host dt p) = position (advance host dt p)
  /\ velocity (integrate host dt p) = velocity (advance host dt p)
  /\ age (integrate host dt p) = age (advance host dt p).
Proof.
  unfold integrate, checkCollision, checkBoundaries.
  destruct (THREE.length (position (advance host dt p)) <? 2)%float;
    [ | destruct (JS.gtb (THREE.length (position (advance host dt p))) _);
        [ | destruct (JS.gtb (age (advance host dt p)) 100) ] ];
    cbn [position set_active];
    destruct (checkPlanetaryCollision (position (advance host dt p)));
    now repeat split.
Qed.

(** With a step of 0 the motion of a particle whose velocity and
    acceleration are finite is a no-op. *)
Lemma advance_zero (p : Particle) :
  finiteVector (velocity p) = true ->
  finiteVector (acceleration host p) = true ->
  sameVector (position p) (position (advance host 0 p))
  /\ sameVector (velocity p) (velocity (advance host 0 p))
  /\ sameNumber (age p) (age (advance host 0 p)).
Proof.
  intros Hv Ha.
  assert (Hvel : sameVector (velocity p) (velocity (advance host 0 p))).
  { rewrite velocity_advance. now apply zero_step_sameVector. }
  split; [ | split; [exact Hvel | ] ].
  - rewrite position_advance. apply zero_step_sameVector.
    exact (sameVector_finite _ _ Hvel Hv).
  - rewrite age_advance. now apply (add_zero_same (age p) 0%float false).
Qed.

(** C4, as the code has it: after [setTimeScale(0)], [update(1.0)] leaves
    an active particle whose velocity and whose acceleration for the step
    are finite with the position, velocity and age it had (a component that
    was -0 may read +0). *)
Theorem zero_time_scale_update_keeps_finite_particle (sys : ParticleSystem)
  (i : nat) (p : Particle) :
  nth_error (particles sys) i = Some p ->
  active p = true ->
  finiteVector (velocity p) = true ->
  finiteVector (acceleration host p) = true ->
  exists p',
    nth_error (particles (update host 1.0 (setTimeScale 0 sys))) i = Some p'
    /\ sameVector (position p) (position p')
    /\ sameVector (velocity p) (velocity p')
    /\ sameNumber (age p) (age p').
Proof.
  intros Hi Hp Hv Ha.
  exists (integrate host 0 p). split.
  - exact (update_integrates 1.0 (setTimeScale 0 sys) i p Hi Hp).
  - destruct (integrate_keeps_motion 0 p) as (-> & -> & ->).
    now apply advance_zero.
Qed.

(** The escape radius [heliopauseRadius * 1.2] is exactly 600. *)
Lemma escape_radius : (heliopauseRadius * 1.2)%float = 600%float.
Proof. reflexivity. Qed.

(** C6, as the code has it: the escape test reads the position after the
    step, so [update] marks an active particle inactive when that moved
    position is farther than 600 from the origin. *)
Theorem particle_beyond_escape_radius_after_move_is_deactivated
  (deltaTime : float) (sys : ParticleSystem) (i : nat) (p : Particle) :
  nth_error (particles sys) i = Some p ->
  active p = true ->
  (600 <? THREE.length
            (position (advance host (deltaTime * timeScale sys) p)))%float
  = true ->
  exists p',
    nth_error (particles (update host deltaTime sys)) i = Some p'
    /\ active p' = false.
Proof.
  intros Hi Hp Hfar.
  exists (integrate host (deltaTime * timeScale sys) p). split.
  - exact (update_integrates deltaTime sys i p Hi Hp).
  - rewrite active_integrate.
    unfold deactivates, escaped, JS.gtb. cbn zeta.
    rewrite escape_radius, Hfar.
    now rewrite orb_true_r, andb_false_r.
Qed.

(** C7, as the code has it: for an active particle at the origin the
    gravity and solar-wind guards are false, so neither term is computed or
    added (the force is what the magnetic term alone gives); [update] marks
    the particle inactive when its position after the step is closer than
    2 to the origin. *)
Theorem particle_at_origin_feels_no_gravity_or_wind (deltaTime : float)
  (sys : ParticleSystem) (i : nat) (p : Particle) :
  nth_error (particles sys) i = Some p ->
  active p = true ->
  position p = vec3 0 0 0 ->
  gravityForce p = None
  /\ solarWindForce p = None
  /\ totalForce host p = addForce (vec3 0 0 0) (lorentzForce host p)
  /\ ((THREE.length
         (position (advance host (deltaTime * timeScale sys) p)) <? 2)%float
      = true ->
      exists p',
        nth_error (particles (update host deltaTime sys)) i = Some p'
        /\ active p' = false).
Proof.
  intros Hi Hp Hpos.
  assert (Hg : gravityForce p = None).
  { unfold gravityForce. now rewrite Hpos. }
  assert (Hw : solarWindForce p = None).
  { unfold solarWindForce, distanceToSun. now rewrite Hpos. }
  split; [exact Hg | ]. split; [exact Hw | ].
  split.
  - unfold totalForce. now rewrite Hg, Hw.
  - intros Hnear.
    exists (integrate host (deltaTime * timeScale sys) p). split.
    + exact (update_integrates deltaTime sys i p Hi Hp).
    + rewrite active_integrate.
      unfold deactivates, captured. cbn zeta.
      rewrite Hnear. now rewrite andb_false_r.
Qed.

End Properties.

(* ------------------------------------------------------------------------- *)
(** ** What [getStatistics] shares with its caller *)

Lemma lookup_modify_same (f : Obj -> Obj) (h : Heap) :
  forall (l : loc) (o : Obj),
    lookup h l = Some o -> lookup (modify l f h) l = Some (f o).
Proof.
  induction h as [| o' h IH]; intros l o Hl.
  - destruct l; discriminate.
  - destruct l as [| l]; cbn in Hl |- *.
    + now injection Hl as ->.
    + now apply IH.
Qed.

Lemma lookup_modify_other (f : Obj -> Obj) (h : Heap) :
  forall (l l' : loc),
    l <> l' -> lookup (modify l f h) l' = lookup h l'.
Proof.
  induction h as [| o' h IH]; intros l l' Hne.
  - now destruct l.
  - destruct l as [| l], l' as [| l']; cbn; try reflexivity.
    + congruence.
    + apply IH. congruence.
Qed.

Lemma lookup_in_heap (h : Heap) (l : loc) (o : Obj) :
  lookup h l = Some o -> l < List.length h.
Proof. intros Hl. apply nth_error_Some. unfold lookup in Hl. congruence. Qed.

(** A snapshot read through [l] is not affected by allocations. *)
Lemma snapshotAt_old (h h' : Heap) (l : loc) v :
  snapshotAt h l = Some v -> snapshotAt (h ++ h') l = Some v.
Proof.
  unfold snapshotAt.
  destruct (lookup h l) as [[e | t | s] |] eqn:Hs; try discriminate.
  destruct (lookup h (energyDistribution s)) as [[e | t | s'] |] eqn:He;
    try discriminate.
  destruct (lookup h (particleTypes s)) as [[e' | t | s'] |] eqn:Ht;
    try discriminate.
  intros Hv.
  rewrite (lookup_old h h' l) by (eapply lookup_in_heap; eassumption).
  rewrite Hs.
  rewrite (lookup_old h h' (energyDistribution s))
    by (eapply lookup_in_heap; eassumption).
  rewrite (lookup_old h h' (particleTypes s))
    by (eapply lookup_in_heap; eassumption).
  now rewrite He, Ht.
Qed.

Section Snapshots.

Variable sys : ParticleSystem.
Variable s : Stats.
Variable e : EnergyDistribution.
Variable t : ParticleTypes.

Hypothesis stored : storedStatistics sys = Some (s, e, t).

Lemma stored_objects :
  lookup (heap sys) (stats sys) = Some (OStats s)
  /\ lookup (heap sys) (energyDistribution s) = Some (OEnergy e)
  /\ lookup (heap sys) (particleTypes s) = Some (OTypes t).
Proof.
  unfold storedStatistics, snapshotAt in stored.
  destruct (lookup (heap sys) (stats sys)) as [[e0 | t0 | s0] |];
    try discriminate.
  destruct (lookup (heap sys) (energyDistribution s0)) as [[e1 | t1 | s1] |]
    eqn:He; try discriminate.
  destruct (lookup (heap sys) (particleTypes s0)) as [[e2 | t2 | s2] |]
    eqn:Ht; try discriminate.
  injection stored as -> -> ->. now repeat split.
Qed.

(** The object returned is new, and the system is otherwise as it was. *)
Lemma getStatistics_allocates :
  getStatistics sys
  = Some (List.length (heap sys), withHeap (heap sys ++ [OStats s]) sys).
Proof.
  destruct stored_objects as (Hs & _ & _).
  unfold getStatistics, alloc. now rewrite Hs.
Qed.

(** The copy reads as the stored snapshot, and so does the stored snapshot
    after the call. *)
Lemma getStatistics_reads_stored :
  snapshotAt (heap sys ++ [OStats s]) (List.length (heap sys))
  = Some (s, e, t)
  /\ storedStatistics (withHeap (heap sys ++ [OStats s]) sys)
     = Some (s, e, t).
Proof.
  destruct stored_objects as (Hs & He & Ht).
  split.
  - unfold snapshotAt. rewrite lookup_new.
    rewrite !lookup_old by (eapply lookup_in_heap; eassumption).
    now rewrite He, Ht.
  - unfold storedStatistics. cbn [heap stats withHeap].
    now apply snapshotAt_old.
Qed.

(** Assigning to a property of the copy itself leaves the stored snapshot
    alone. *)
Lemma assignTotalParticles_isolated (v : Z) :
  snapshotAt
    (assignTotalParticles (List.length (heap sys)) v (heap sys ++ [OStats s]))
    (stats sys)
  = Some (s, e, t).
Proof.
  destruct stored_objects as (Hs & He & Ht).
  pose proof (lookup_in_heap _ _ _ Hs) as Ls.
  pose proof (lookup_in_heap _ _ _ He) as Le.
  pose proof (lookup_in_heap _ _ _ Ht) as Lt.
  unfold snapshotAt, assignTotalParticles.
  rewrite lookup_modify_other by lia.
  rewrite lookup_old by exact Ls. rewrite Hs.
  rewrite !lookup_modify_other by lia.
  rewrite !lookup_old by assumption.
  now rewrite He, Ht.
Qed.

(** Assigning through the copy's [particleTypes] reference changes the
    object the stored snapshot refers to as well. *)
Lemma assignHydrogen_reaches_stored (v : Z) :
  snapshotAt
    (assignHydrogen (List.length (heap sys)) v (heap sys ++ [OStats s]))
    (stats sys)
  = Some (s, e, mkTypes v (helium t) (ions t) (dust t)).
Proof.
  destruct stored_objects as (Hs & He & Ht).
  pose proof (lookup_in_heap _ _ _ Hs) as Ls.
  pose proof (lookup_in_heap _ _ _ He) as Le.
  pose proof (lookup_in_heap _ _ _ Ht) as Lt.
  assert (Hts : particleTypes s <> stats sys) by congruence.
  assert (Hte : particleTypes s <> energyDistribution s) by congruence.
  unfold snapshotAt, assignHydrogen.
  rewrite lookup_new.
  rewrite lookup_modify_other by exact Hts.
  rewrite lookup_old by exact Ls. rewrite Hs.
  rewrite lookup_modify_other by exact Hte.
  rewrite lookup_old by exact Le. rewrite He.
  rewrite (lookup_modify_same _ _ (particleTypes s) (OTypes t))
    by (rewrite lookup_old by exact Lt; exact Ht).
  reflexivity.
Qed.

End Snapshots.

(** What [getStatistics] gives its caller, for a system built by
    construction and calls: a new object that reads as the stored snapshot,
    as does the result of a second call; an assignment to a property of the
    returned object itself does not reach the stored snapshot, but an
    assignment through its [particleTypes] reference does, and shows in the
    result of a later call. *)
Lemma getStatistics_copy_is_shallow (host : Host) (n : Z) (cs : list Call)
  (v : Z) :
  let sys := run host cs (new host n) in
  exists s e t copy sys1,
    storedStatistics sys = Some (s, e, t)
    /\ getStatistics sys = Some (copy, sys1)
    /\ snapshotAt (heap sys1) copy = Some (s, e, t)
    /\ (exists copy2 sys2,
           getStatistics sys1 = Some (copy2, sys2)
           /\ snapshotAt (heap sys2) copy2 = Some (s, e, t))
    /\ storedStatistics
         (withHeap (assignTotalParticles copy v (heap sys1)) sys1)
       = Some (s, e, t)
    /\ storedStatistics (withHeap (assignHydrogen copy v (heap sys1)) sys1)
       = Some (s, e, mkTypes v (helium t) (ions t) (dust t))
    /\ (exists copy3 sys3,
           getStatistics (withHeap (assignHydrogen copy v (heap sys1)) sys1)
           = Some (copy3, sys3)
           /\ snapshotAt (heap sys3) copy3
              = Some (s, e, mkTypes v (helium t) (ions t) (dust t))).
Proof.
  intros sys.
  destruct (run_sound host cs n) as (s & e & t & Hs & _). fold sys in Hs.
  pose proof (getStatistics_allocates sys s e t Hs) as Hget.
  destruct (getStatistics_reads_stored sys s e t Hs) as (Hcopy & Hstored1).
  exists s, e, t, (List.length (heap sys)),
    (withHeap (heap sys ++ [OStats s]) sys).
  split; [exact Hs | ]. split; [exact Hget | ]. split; [exact Hcopy | ].
  split.
  { do 2 eexists. split.
    - exact (getStatistics_allocates _ s e t Hstored1).
    - exact (proj1 (getStatistics_reads_stored _ s e t Hstored1)). }
  split; [exact (assignTotalParticles_isolated sys s e t Hs v) | ].
  set (leaked :=
         withHeap
           (assignHydrogen (List.length (heap sys)) v (heap sys ++ [OStats s]))
           (withHeap (heap sys ++ [OStats s]) sys)).
  assert (Hleak : storedStatistics leaked
                  = Some (s, e, mkTypes v (helium t) (ions t) (dust t)))
    by exact (assignHydrogen_reaches_stored sys s e t Hs v).
  split; [exact Hleak | ].
  do 2 eexists. split.
  - exact (getStatistics_allocates leaked _ _ _ Hleak).
  - exact (proj1 (getStatistics_reads_stored leaked _ _ _ Hleak)).
Qed.

(* ========================================================================= *)
(** * The properties on concrete runs *)

(** C1 on a run: the only particle of [expiringRun] has been deactivated,
    and the next [update] puts a new particle in its slot. *)
Lemma expired_particle_is_respawned :
  nth_error
    (particles (run ExampleHost.host expiringRun (new ExampleHost.host 1))) 0
  = Some expiredParticle
  /\ active expiredParticle = false
  /\ (exists k p',
         p' = fst (createParticle ExampleHost.host k)
         /\ nth_error
              (particles
                 (update ExampleHost.host 0.016
                    (run ExampleHost.host expiringRun
                         (new ExampleHost.host 1)))) 0
            = Some p'
         /\ active p' = true
         /\ deflected p' = false
         /\ age p' = 0%float).
Proof.
  assert (H1 : nth_error
                 (particles (run ExampleHost.host expiringRun
                                 (new ExampleHost.host 1))) 0
               = Some expiredParticle) by (vm_compute; reflexivity).
  assert (H2 : active expiredParticle = false) by (vm_compute; reflexivity).
  split; [exact H1 | ]. split; [exact H2 | ].
  exact (proj2 (inactive_particle_is_respawned_by_next_update
                  ExampleHost.host 1 expiringRun 0.016 0 expiredParticle
                  H1 H2)).
Defined.

(** C4 on a particle with finite velocity and acceleration. *)
Lemma zero_time_scale_keeps_cruising_dust :
  nth_error (particles (systemOf [cruisingDust])) 0 = Some cruisingDust
  /\ active cruisingDust = true
  /\ finiteVector (velocity cruisingDust) = true
  /\ finiteVector (acceleration ExampleHost.host cruisingDust) = true
  /\ (exists p',
         nth_error
           (particles
              (update ExampleHost.host 1.0
                 (setTimeScale 0 (systemOf [cruisingDust])))) 0
         = Some p'
         /\ sameVector (position cruisingDust) (position p')
         /\ sameVector (velocity cruisingDust) (velocity p')
         /\ sameNumber (age cruisingDust) (age p')).
Proof.
  assert (H1 : nth_error (particles (systemOf [cruisingDust])) 0
               = Some cruisingDust) by reflexivity.
  assert (H2 : active cruisingDust = true) by reflexivity.
  assert (H3 : finiteVector (velocity cruisingDust) = true)
    by (vm_compute; reflexivity).
  assert (H4 : finiteVector (acceleration ExampleHost.host cruisingDust)
               = true) by (vm_compute; reflexivity).
  repeat (split; [assumption | ]).
  exact (zero_time_scale_update_keeps_finite_particle
           ExampleHost.host (systemOf [cruisingDust]) 0 cruisingDust
           H1 H2 H3 H4).
Defined.

(** How a zero step can change a particle, on a placed particle: at
    distance 1e-160 from the Sun the guard [distanceToSun > 0] passes, the
    square of the distance is so small that the gravity magnitude overflows
    to infinity, and with [dt = 0] the velocity and position of this
    particle become NaN.  The particle is dust, so the result is the same
    on every host. *)
Lemma zero_time_scale_update_changes_dust_near_sun :
  active nearSunDust = true
  /\ position nearSunDust = vec3 1e-160 0 0
  /\ velocity nearSunDust = vec3 0 0 0
  /\ (forall host : Host,
         acceleration host nearSunDust = vec3 neg_infinity nan nan
         /\ nth_error
              (particles
                 (update host 1.0 (setTimeScale 0 (systemOf [nearSunDust]))))
              0
            = Some (set_position (vec3 nan nan nan)
                      (set_velocity (vec3 nan nan nan) nearSunDust))).
Proof.
  split; [reflexivity | ]. split; [reflexivity | ]. split; [reflexivity | ].
  intros host. split; vm_compute; reflexivity.
Qed.

(** C4 fails on a system reached through the public calls alone.  On
    [polarDustHost] the particle of [new ParticleSystem(1)] is dust spawned
    at (0, 0, 500); a frame with time scale -Infinity leaves it active
    (every test compares with NaN or with an age of -Infinity) at
    z = -Infinity with velocity z = Infinity, and the [update(1.0)] after
    [setTimeScale(0)] turns the z coordinate of its position into NaN. *)
Lemma zero_time_scale_update_changes_rewound_particle :
  exists p q,
    nth_error
      (particles (run polarDustHost rewindRun (new polarDustHost 1))) 0
    = Some p
    /\ active p = true
    /\ THREE.z (position p) = neg_infinity
    /\ THREE.z (velocity p) = infinity
    /\ nth_error
         (particles
            (update polarDustHost 1.0
               (setTimeScale 0
                  (run polarDustHost rewindRun (new polarDustHost 1))))) 0
       = Some q
    /\ THREE.z (position q) = nan.
Proof.
  do 2 eexists.
  split; [vm_compute; reflexivity | ].
  split; [reflexivity | ]. split; [reflexivity | ]. split; [reflexivity | ].
  split; [vm_compute; reflexivity | reflexivity].
Qed.

(** C6 on a particle that moves away from the Sun. *)
Lemma outbound_dust_escapes :
  nth_error (particles (systemOf [outboundDust])) 0 = Some outboundDust
  /\ active outboundDust = true
  /\ THREE.length (position outboundDust) = 1000%float
  /\ (exists p',
         nth_error
           (particles (update ExampleHost.host 0.016 (systemOf [outboundDust])))
           0
         = Some p'
         /\ active p' = false).
Proof.
  assert (H1 : nth_error (particles (systemOf [outboundDust])) 0
               = Some outboundDust) by reflexivity.
  assert (H2 : active outboundDust = true) by reflexivity.
  assert (H3 : (600 <? THREE.length
                         (position
                            (advance ExampleHost.host
                               (0.016 * timeScale (systemOf [outboundDust]))
                               outboundDust)))%float = true)
    by (vm_compute; reflexivity).
  split; [exact H1 | ]. split; [exact H2 | ].
  split; [vm_compute; reflexivity | ].
  exact (particle_beyond_escape_radius_after_move_is_deactivated
           ExampleHost.host 0.016 (systemOf [outboundDust]) 0 outboundDust
           H1 H2 H3).
Defined.

(** C6 fails for a particle that moves towards the Sun: from distance 1000
    with velocity (-10, 0, 0), an [update] with [deltaTime = 50] and time
    scale 1 moves it to distance 499.9975, inside the escape radius, and it
    stays active (its age, 50, is not above 100, it is not within 2 of the
    Sun and not inside a planet). *)
Lemma inbound_dust_stays_active :
  active inboundDust = true
  /\ THREE.length (position inboundDust) = 1000%float
  /\ (forall host : Host,
         nth_error (particles (update host 50 (systemOf [inboundDust]))) 0
         = Some (set_age 50
                   (set_position (vec3 499.9975 0 0)
                      (set_velocity (vec3 (-10.00005) 0 0) inboundDust)))
         /\ active (set_age 50
                      (set_position (vec3 499.9975 0 0)
                         (set_velocity (vec3 (-10.00005) 0 0) inboundDust)))
            = true).
Proof.
  split; [reflexivity | ]. split; [vm_compute; reflexivity | ].
  intros host. split; vm_compute; reflexivity.
Qed.

(** C7 on a hydrogen ion at the origin with speed 1 and a frame of 0.016. *)
Lemma origin_hydrogen_is_captured :
  nth_error (particles (systemOf [originHydrogen])) 0 = Some originHydrogen
  /\ active originHydrogen = true
  /\ position originHydrogen = vec3 0 0 0
  /\ gravityForce originHydrogen = None
  /\ solarWindForce originHydrogen = None
  /\ (exists p',
         nth_error
           (particles
              (update ExampleHost.host 0.016 (systemOf [originHydrogen]))) 0
         = Some p'
         /\ active p' = false).
Proof.
  assert (H1 : nth_error (particles (systemOf [originHydrogen])) 0
               = Some originHydrogen) by reflexivity.
  assert (H2 : active originHydrogen = true) by reflexivity.
  assert (H3 : position originHydrogen = vec3 0 0 0) by reflexivity.
  destruct (particle_at_origin_feels_no_gravity_or_wind
              ExampleHost.host 0.016 (systemOf [originHydrogen]) 0
              originHydrogen H1 H2 H3) as (Hg & Hw & _ & Hc).
  repeat (split; [assumption | ]).
  apply Hc. vm_compute. reflexivity.
Defined.

(** C7 fails on the capture: dust at the origin with velocity (3, 0, 0)
    is, after an [update] with [deltaTime = 1] and time scale 1, at
    (3, 0, 0), which is not within 2 of the origin, and stays active. *)
Lemma origin_dust_stays_active :
  active originDust = true
  /\ position originDust = vec3 0 0 0
  /\ (forall host : Host,
         nth_error (particles (update host 1 (systemOf [originDust]))) 0
         = Some (set_age 1 (set_position (vec3 3 0 0) originDust))
         /\ active (set_age 1 (set_position (vec3 3 0 0) originDust)) = true).
Proof.
  split; [reflexivity | ]. split; [reflexivity | ].
  intros host. split; vm_compute; reflexivity.
Qed.

(** C8 on a system of two particles after an update and a reset. *)
Lemma two_particle_buffers_have_six_values :
  (0 <= 2)%Z
  /\ Z.of_nat
       (List.length
          (getPositions
             (run ExampleHost.host [CallUpdate 0.016; CallReset]
                  (new ExampleHost.host 2)))) = 6%Z
  /\ Z.of_nat
       (List.length
          (getColors
             (run ExampleHost.host [CallUpdate 0.016; CallReset]
                  (new ExampleHost.host 2)))) = 6%Z.
Proof.
  assert (H : (0 <= 2)%Z) by discriminate.
  destruct (buffers_hold_three_values_per_particle
              ExampleHost.host 2 [CallUpdate 0.016; CallReset] H)
    as (Hp & Hc & _).
  split; [exact H | ]. split; [exact Hp | exact Hc].
Defined.

(** C5 fails on the nested objects.  A system of two hydrogen particles:
    the caller takes the statistics and assigns 99 to
    [particleTypes.hydrogen] of what it got; the statistics the system
    holds then read 99 instead of 2, and so does the result of the next
    [getStatistics]. *)
Theorem getStatistics_result_shares_particleTypes :
  exists copy sys1 copy2 sys2,
    getStatistics (new ExampleHost.host 2) = Some (copy, sys1)
    /\ hydrogenSeen (storedStatistics sys1) = Some 2%Z
    /\ hydrogenSeen
         (storedStatistics
            (withHeap (assignHydrogen copy 99 (heap sys1)) sys1))
       = Some 99%Z
    /\ getStatistics (withHeap (assignHydrogen copy 99 (heap sys1)) sys1)
       = Some (copy2, sys2)
    /\ hydrogenSeen (snapshotAt (heap sys2) copy2) = Some 99%Z.
Proof.
  do 4 eexists.
  split; [vm_compute; reflexivity | ].
  split; [vm_compute; reflexivity | ].
  split; [vm_compute; reflexivity | ].
  split; vm_compute; reflexivity.
Qed.

(* ========================================================================= *)
(** * Further properties of the code *)

(* ------------------------------------------------------------------------- *)
(** ** What the statistics count *)

Definition isActive (p : Particle) : bool := active p.
Definition isInactive (p : Particle) : bool := negb (active p).
Definition isActiveDeflected (p : Particle) : bool :=
  active p && deflected p.

(** The speeds of the particles of [ps], added from left to right onto
    [start]. *)
Definition addSpeeds (start : float) (ps : list Particle) : float :=
  fold_left (fun total p => (total + THREE.length (velocity p))%float)
            ps start.

Definition energySum (e : EnergyDistribution) : Z :=
  (low e + medium e + high e)%Z.

Lemma countEnergy_sum (e : float) (en : EnergyDistribution) :
  energySum (countEnergy e en) = (energySum en + 1)%Z.
Proof.
  unfold countEnergy, energySum.
  destruct (e <? 100)%float; [simpl; lia | ].
  destruct (e <? 1000)%float; simpl; lia.
Qed.

(** The counters after the loop, from the counters before it. *)
Lemma fold_countParticle_counts (ps : list Particle) :
  forall c : Counters.t,
    let c' := fold_left countParticle ps c in
    Counters.activeCount c'
    = (Counters.activeCount c
       + Z.of_nat (List.length (filter isActive ps)))%Z
    /\ Counters.capturedCount c'
       = (Counters.capturedCount c
          + Z.of_nat (List.length (filter isInactive ps)))%Z
    /\ Counters.deflectedCount c'
       = (Counters.deflectedCount c
          + Z.of_nat (List.length (filter isActiveDeflected ps)))%Z
    /\ Counters.totalVelocity c'
       = addSpeeds (Counters.totalVelocity c) (filter isActive ps)
    /\ (energySum (Counters.energy c') - Counters.activeCount c'
        = energySum (Counters.energy c) - Counters.activeCount c)%Z.
Proof.
  induction ps as [| p ps IH]; intros c.
  - cbn. repeat split; try reflexivity; lia.
  - cbn [fold_left]. cbn zeta in IH |- *.
    destruct (IH (countParticle c p)) as (Ha & Hc & Hd & Hv & He).
    rewrite He, Ha, Hc, Hd, Hv. clear IH Ha Hc Hd Hv He.
    unfold countParticle, isActive, isInactive, isActiveDeflected, addSpeeds.
    cbn [filter].
    destruct (active p); cbn [negb andb Counters.activeCount
                               Counters.capturedCount Counters.deflectedCount
                               Counters.totalVelocity Counters.energy].
    + rewrite countEnergy_sum.
      destruct (deflected p); cbn [List.length fold_left];
        repeat split; try reflexivity; lia.
    + cbn [List.length]. repeat split; try reflexivity; lia.
Qed.

Lemma countParticles_counts (ps : list Particle) :
  let c := countParticles ps in
  Counters.activeCount c = Z.of_nat (List.length (filter isActive ps))
  /\ Counters.capturedCount c = Z.of_nat (List.length (filter isInactive ps))
  /\ Counters.deflectedCount c
     = Z.of_nat (List.length (filter isActiveDeflected ps))
  /\ Counters.totalVelocity c = addSpeeds 0 (filter isActive ps)
  /\ energySum (Counters.energy c) = Counters.activeCount c.
Proof.
  cbn zeta. unfold countParticles.
  destruct (fold_countParticle_counts ps initialCounters)
    as (Ha & Hc & Hd & Hv & He).
  cbn zeta in Ha, Hc, Hd, Hv, He.
  cbn [initialCounters Counters.activeCount Counters.capturedCount
       Counters.deflectedCount Counters.totalVelocity Counters.energy] in *.
  unfold energySum in He at 2. cbn in He.
  repeat split; try assumption; lia.
Qed.

(** A property of the stored snapshot that every [updateStatistics]
    establishes holds after construction and any calls. *)
Lemma run_stored_property (host : Host)
  (P : list Particle
       -> option (Stats * EnergyDistribution * ParticleTypes) -> Prop) :
  (forall sys,
      P (particles (updateStatistics sys))
        (storedStatistics (updateStatistics sys))) ->
  forall (n : Z) (cs : list Call),
    P (particles (run host cs (new host n)))
      (storedStatistics (run host cs (new host n))).
Proof.
  intros Hupd n cs.
  induction cs as [| c cs IH] using rev_ind.
  - destruct (new_recomputes host n) as (sys' & Hnew).
    cbn [run fold_left]. rewrite Hnew. apply Hupd.
  - rewrite run_snoc.
    destruct (call_recomputes host c (run host cs (new host n)))
      as [(sys' & ->) | (Hp & Hs)].
    + apply Hupd.
    + now rewrite Hp, Hs.
Qed.


(** X2: the average velocity of a snapshot is 0 when no particle is active
    (nothing is divided), and otherwise the speeds of the active particles,
    added in array order, divided by their number. *)
Theorem average_velocity_is_mean_speed_of_active (sys : ParticleSystem) :
  exists s e t,
    storedStatistics (updateStatistics sys) = Some (s, e, t)
    /\ activeParticles s
       = Z.of_nat (List.length (filter isActive (particles sys)))
    /\ averageVelocity s
       = match filter isActive (particles sys) with
         | [] => 0%float
         | actives =>
             (addSpeeds 0 actives
              / JS.of_count (Z.of_nat (List.length actives)))%float
         end.
Proof.
  destruct (storedStatistics_updateStatistics sys)
    as (s & Hs & _ & Hact & _ & _ & Havg).
  destruct (countParticles_counts (particles sys)) as (Ha & _ & _ & Hv & _).
  do 3 eexists. split; [exact Hs | ].
  split; [now rewrite Hact | ].
  rewrite Havg, Hv, Ha.
  destruct (filter isActive (particles sys)) as [| p actives].
  - reflexivity.
  - replace (0 <? Z.of_nat (List.length (p :: actives)))%Z with true;
      [reflexivity | ].
    symmetry. apply Z.ltb_lt. cbn [List.length]. lia.
Qed.

Lemma update_recomputes (host : Host) (deltaTime : float)
  (sys : ParticleSystem) :
  exists sys',
    update host deltaTime sys = updateStatistics sys'
    /\ particles sys'
       = fst (updateParticles host (deltaTime * timeScale sys)
                              (particles sys) (drawn sys)).
Proof.
  unfold update.
  destruct (updateParticles host (deltaTime * timeScale sys)
                            (particles sys) (drawn sys)) as [ps k].
  eexists. split; reflexivity.
Qed.

(** A slot is inactive after the loop body exactly when it held an active
    particle that one of the four tests deactivated. *)
Lemma updateParticle_isInactive (host : Host) (dt : float) (p : Particle)
  (k : nat) :
  isInactive (fst (updateParticle host dt p k))
  = active p && deactivates host dt p.
Proof.
  unfold isInactive. destruct (active p) eqn:Hp.
  - rewrite updateParticle_active by exact Hp. cbn [fst andb].
    rewrite active_integrate, active_advance, Hp. cbn [andb].
    apply negb_involutive.
  - rewrite updateParticle_inactive by exact Hp.
    destruct (createParticle_fresh host k) as (Ha & _).
    cbn zeta in Ha. now rewrite Ha.
Qed.

Lemma updateParticles_inactive_count (host : Host) (dt : float)
  (ps : list Particle) :
  forall k,
    List.length (filter isInactive (fst (updateParticles host dt ps k)))
    = List.length
        (filter (fun p => active p && deactivates host dt p) ps).
Proof.
  induction ps as [| p ps IH]; intros k.
  - reflexivity.
  - cbn [updateParticles]. unfold bind, ret.
    pose proof (updateParticle_isInactive host dt p k) as Hp.
    destruct (updateParticle host dt p k) as [p' k1].
    specialize (IH k1).
    destruct (updateParticles host dt ps k1) as [rest k2].
    cbn [fst filter] in *. rewrite Hp.
    destruct (active p && deactivates host dt p); cbn [List.length];
      now rewrite IH.
Qed.

(** X3: the captured count of the snapshot after an [update] is the number
    of particles that were active before the call and that the call
    deactivated, for any system; earlier deactivations are not in it (those
    slots were respawned by the call). *)
Theorem captured_count_is_of_the_last_update (host : Host)
  (deltaTime : float) (sys : ParticleSystem) :
  exists s e t,
    storedStatistics (update host deltaTime sys) = Some (s, e, t)
    /\ capturedParticles s
       = Z.of_nat
           (List.length
              (filter
                 (fun p =>
                    active p
                    && deactivates host (deltaTime * timeScale sys) p)
                 (particles sys))).
Proof.
  destruct (update_recomputes host deltaTime sys) as (sys' & -> & Hps).
  destruct (storedStatistics_updateStatistics sys')
    as (s & Hs & _ & _ & _ & Hcap & _).
  destruct (countParticles_counts (particles sys')) as (_ & Hc & _).
  do 3 eexists. split; [exact Hs | ].
  rewrite Hcap, Hc, Hps.
  now rewrite updateParticles_inactive_count.
Qed.

(* ------------------------------------------------------------------------- *)
(** ** Construction and reset *)

Definition isFresh (p : Particle) : Prop :=
  active p = true /\ deflected p = false /\ age p = 0%float.

Lemma spawn_fresh (host : Host) (n : nat) :
  forall k, Forall isFresh (fst (spawn host n k)).
Proof.
  induction n as [| n IH]; intros k.
  - constructor.
  - cbn [spawn]. unfold bind, ret.
    pose proof (createParticle_fresh host k) as Hp.
    destruct (createParticle host k) as [p k1].
    specialize (IH k1).
    destruct (spawn host n k1) as [rest k2].
    cbn [fst] in *. constructor; [exact Hp | exact IH].
Qed.

Lemma filter_fresh (ps : list Particle) :
  Forall isFresh ps ->
  filter isActive ps = ps
  /\ filter isInactive ps = []
  /\ filter isActiveDeflected ps = [].
Proof.
  induction 1 as [| p ps (Ha & Hd & _) _ (IHa & IHi & IHd)].
  - now repeat split.
  - unfold isActive, isInactive, isActiveDeflected in *.
    cbn [filter]. rewrite Ha, Hd. cbn [negb andb].
    now rewrite IHa, IHi, IHd.
Qed.

Lemma initializeParticles_fresh (host : Host) (sys : ParticleSystem) :
  let sys' := initializeParticles host sys in
  Forall isFresh (particles sys')
  /\ List.length (particles sys') = Z.to_nat (maxParticles sys)
  /\ timeScale sys' = timeScale sys
  /\ exists s e t,
       storedStatistics sys' = Some (s, e, t)
       /\ totalParticles s = Z.of_nat (Z.to_nat (maxParticles sys))
       /\ activeParticles s = totalParticles s
       /\ capturedParticles s = 0%Z
       /\ deflectedParticles s = 0%Z.
Proof.
  cbn zeta.
  pose proof (spawn_fresh host (Z.to_nat (maxParticles sys)) (drawn sys))
    as Hfresh.
  pose proof (spawn_length host (Z.to_nat (maxParticles sys)) (drawn sys))
    as Hlen.
  unfold initializeParticles.
  destruct (spawn host (Z.to_nat (maxParticles sys)) (drawn sys)) as [ps k].
  cbn [fst] in Hfresh, Hlen.
  split; [exact Hfresh | ]. split; [exact Hlen | ]. split; [reflexivity | ].
  destruct (storedStatistics_updateStatistics
              (mkSystem ps (maxParticles sys) (timeScale sys) (stats sys)
                        (heap sys) k))
    as (s & Hs & Htot & Hact & Hdef & Hcap & _).
  destruct (countParticles_counts ps) as (Ha & Hc & Hd & _).
  destruct (filter_fresh ps Hfresh) as (Fa & Fi & Fd).
  cbn [particles] in *.
  do 3 eexists. split; [exact Hs | ].
  rewrite Htot, Hact, Hdef, Hcap, Ha, Hc, Hd, Fa, Fi, Fd, Hlen.
  now repeat split.
Qed.

(** X4: right after construction, and right after a [reset] of any system,
    every particle is active, not deflected and of age 0, there are
    [maxParticles] of them (none for a negative [maxParticles]), and the
    snapshot counts them all as active, none as captured or deflected.
    [reset] keeps the time scale; a new system has time scale 1. *)
Theorem construction_and_reset_give_all_active (host : Host) :
  (forall sys : ParticleSystem,
      Forall isFresh (particles (reset host sys))
      /\ List.length (particles (reset host sys))
         = Z.to_nat (maxParticles sys)
      /\ timeScale (reset host sys) = timeScale sys
      /\ exists s e t,
           storedStatistics (reset host sys) = Some (s, e, t)
           /\ totalParticles s = Z.of_nat (Z.to_nat (maxParticles sys))
           /\ activeParticles s = totalParticles s
           /\ capturedParticles s = 0%Z
           /\ deflectedParticles s = 0%Z)
  /\ (forall n : Z,
         Forall isFresh (particles (new host n))
         /\ List.length (particles (new host n)) = Z.to_nat n
         /\ timeScale (new host n) = 1%float
         /\ exists s e t,
              storedStatistics (new host n) = Some (s, e, t)
              /\ totalParticles s = Z.of_nat (Z.to_nat n)
              /\ activeParticles s = totalParticles s
              /\ capturedParticles s = 0%Z
              /\ deflectedParticles s = 0%Z).
Proof.
  split.
  - intros sys. exact (initializeParticles_fresh host sys).
  - intros n. unfold new, alloc.
    exact (initializeParticles_fresh host _).
Qed.

(* ------------------------------------------------------------------------- *)
(** ** What a step keeps of a particle *)

(** The magnetic force of the step is stronger than 0.1. *)
Definition stronglyDeflected (host : Host) (p : Particle) : bool :=
  match lorentzForce host p with
  | Some f => JS.gtb (THREE.length f) 0.1
  | None => false
  end.

Lemma advance_keeps_identity (host : Host) (dt : float) (p : Particle) :
  mass (advance host dt p) = mass p
  /\ charge (advance host dt p) = charge p
  /\ type (advance host dt p) = type p
  /\ energy (advance host dt p) = energy p
  /\ deflected (advance host dt p)
     = deflected p || stronglyDeflected host p.
Proof.
  unfold advance, markDeflected, stronglyDeflected.
  change (lorentzForce host (set_age (age p + dt) p))
    with (lorentzForce host p).
  destruct (lorentzForce host p) as [f |].
  - destruct (JS.gtb (THREE.length f) 0.1); cbn;
      repeat split; now rewrite ?orb_true_r, ?orb_false_r.
  - cbn. repeat split. now rewrite orb_false_r.
Qed.

Lemma checks_keep_identity (q : Particle) :
  mass (checkCollision (checkBoundaries q)) = mass q
  /\ charge (checkCollision (checkBoundaries q)) = charge q
  /\ type (checkCollision (checkBoundaries q)) = type q
  /\ energy (checkCollision (checkBoundaries q)) = energy q
  /\ deflected (checkCollision (checkBoundaries q)) = deflected q.
Proof.
  unfold checkCollision, checkBoundaries.
  destruct (THREE.length (position q) <? 2)%float;
    [ | destruct (JS.gtb (THREE.length (position q)) _);
        [ | destruct (JS.gtb (age q) 100) ] ];
    cbn [position set_active];
    destruct (checkPlanetaryCollision (position q));
    now repeat split.
Qed.

Lemma integrate_keeps_identity (host : Host) (dt : float) (p : Particle) :
  mass (integrate host dt p) = mass p
  /\ charge (integrate host dt p) = charge p
  /\ type (integrate host dt p) = type p
  /\ energy (integrate host dt p) = energy p
  /\ deflected (integrate host dt p)
     = deflected p || stronglyDeflected host p.
Proof.
  unfold integrate.
  destruct (checks_keep_identity (advance host dt p))
    as (-> & -> & -> & -> & ->).
  apply advance_keeps_identity.
Qed.

(** X5: [update] leaves the mass, charge, type and energy of an active
    particle as they were (the energy computed at spawn is never
    recomputed, whatever the velocity becomes) and adds
    [deltaTime * timeScale] to its age. *)
Theorem update_keeps_mass_charge_type_energy (host : Host)
  (deltaTime : float) (sys : ParticleSystem) (i : nat) (p : Particle) :
  nth_error (particles sys) i = Some p ->
  active p = true ->
  exists p',
    nth_error (particles (update host deltaTime sys)) i = Some p'
    /\ mass p' = mass p
    /\ charge p' = charge p
    /\ type p' = type p
    /\ energy p' = energy p
    /\ age p' = (age p + deltaTime * timeScale sys)%float.
Proof.
  intros Hi Hp.
  exists (integrate host (deltaTime * timeScale sys) p).
  split; [exact (update_integrates host deltaTime sys i p Hi Hp) | ].
  destruct (integrate_keeps_identity host (deltaTime * timeScale sys) p)
    as (Hm & Hc & Ht & He & _).
  destruct (integrate_keeps_motion host (deltaTime * timeScale sys) p)
    as (_ & _ & Ha).
  rewrite Ha, age_advance. now repeat split.
Qed.

(** X6: the [deflected] flag is sticky: an active particle that is
    deflected is still deflected after [update], also when the call
    deactivates it; after the call the flag is set exactly when it was set
    before or the magnetic force of the step is longer than 0.1. *)
Theorem deflected_flag_is_sticky (host : Host) (deltaTime : float)
  (sys : ParticleSystem) (i : nat) (p : Particle) :
  nth_error (particles sys) i = Some p ->
  active p = true ->
  exists p',
    nth_error (particles (update host deltaTime sys)) i = Some p'
    /\ deflected p' = deflected p || stronglyDeflected host p
    /\ (deflected p = true -> deflected p' = true).
Proof.
  intros Hi Hp.
  exists (integrate host (deltaTime * timeScale sys) p).
  split; [exact (update_integrates host deltaTime sys i p Hi Hp) | ].
  destruct (integrate_keeps_identity host (deltaTime * timeScale sys) p)
    as (_ & _ & _ & _ & Hd).
  split; [exact Hd | ].
  intros H. now rewrite Hd, H.
Qed.

Lemma lorentzForce_uncharged (host : Host) (p : Particle) :
  (charge p =? 0)%float = true -> lorentzForce host p = None.
Proof.
  intros Hc. unfold lorentzForce, JS.strict_neq. now rewrite Hc.
Qed.

(** X7: a particle whose charge is 0 feels no magnetic force: its step
    calls none of the host's functions (it is the same on any two hosts)
    and never sets its [deflected] flag. *)
Theorem uncharged_particle_is_never_deflected (host : Host)
  (deltaTime : float) (sys : ParticleSystem) (i : nat) (p : Particle) :
  nth_error (particles sys) i = Some p ->
  active p = true ->
  (charge p =? 0)%float = true ->
  lorentzForce host p = None
  /\ (forall host' : Host,
         integrate host' (deltaTime * timeScale sys) p
         = integrate host (deltaTime * timeScale sys) p)
  /\ exists p',
       nth_error (particles (update host deltaTime sys)) i = Some p'
       /\ deflected p' = deflected p.
Proof.
  intros Hi Hp Hc.
  split; [now apply lorentzForce_uncharged | ].
  split.
  - intros host'.
    unfold integrate, advance, acceleration, totalForce, markDeflected.
    change (lorentzForce host' (set_age (age p + deltaTime * timeScale sys) p))
      with (lorentzForce host' p).
    change (lorentzForce host (set_age (age p + deltaTime * timeScale sys) p))
      with (lorentzForce host p).
    now rewrite (lorentzForce_uncharged host p Hc),
      (lorentzForce_uncharged host' p Hc).
  - exists (integrate host (deltaTime * timeScale sys) p).
    split; [exact (update_integrates host deltaTime sys i p Hi Hp) | ].
    destruct (integrate_keeps_identity host (deltaTime * timeScale sys) p)
      as (_ & _ & _ & _ & Hd).
    rewrite Hd. unfold stronglyDeflected.
    rewrite (lorentzForce_uncharged host p Hc). apply orb_false_r.
Qed.

(* ------------------------------------------------------------------------- *)
(** ** What the type of a particle fixes *)

Lemma createParticle_typeConsistent (host : Host) (k : nat) :
  typeConsistent (fst (createParticle host k)).
Proof.
  unfold createParticle, bind, random, ret, typeConsistent.
  repeat match goal with
         | |- context [if ?b then _ else _] => destruct b
         end;
    cbn; try split; reflexivity.
Qed.

Lemma integrate_typeConsistent (host : Host) (dt : float) (p : Particle) :
  typeConsistent p -> typeConsistent (integrate host dt p).
Proof.
  unfold typeConsistent.
  destruct (integrate_keeps_identity host dt p) as (-> & -> & -> & _ & ->).
  destruct (type p); try exact (fun H => H).
  intros (Hc & Hd). split; [exact Hc | ].
  rewrite Hd. unfold stronglyDeflected.
  rewrite lorentzForce_uncharged; [reflexivity | ].
  now rewrite Hc.
Qed.

(** A property of particles that [createParticle] establishes and the step
    of an active particle keeps holds of every particle after the loop. *)
Lemma updateParticles_Forall (host : Host) (P : Particle -> Prop)
  (dt : float) :
  (forall k, P (fst (createParticle host k))) ->
  (forall p, P p -> P (integrate host dt p)) ->
  forall ps k,
    Forall P ps -> Forall P (fst (updateParticles host dt ps k)).
Proof.
  intros Hnew Hstep ps.
  induction ps as [| p ps IH]; intros k Hall.
  - constructor.
  - inversion Hall as [| ? ? Hp Hps]; subst.
    cbn [updateParticles]. unfold bind, ret.
    assert (Hp' : P (fst (updateParticle host dt p k))).
    { unfold updateParticle. destruct (negb (active p)).
      - apply Hnew.
      - cbn [fst]. now apply Hstep. }
    destruct (updateParticle host dt p k) as [p' k1].
    specialize (IH k1 Hps).
    destruct (updateParticles host dt ps k1) as [rest k2].
    cbn [fst] in *. now constructor.
Qed.

Lemma spawn_Forall (host : Host) (P : Particle -> Prop) :
  (forall k, P (fst (createParticle host k))) ->
  forall n k, Forall P (fst (spawn host n k)).
Proof.
  intros Hnew n. induction n as [| n IH]; intros k.
  - constructor.
  - cbn [spawn]. unfold bind, ret.
    pose proof (Hnew k) as Hp.
    destruct (createParticle host k) as [p k1].
    specialize (IH k1).
    destruct (spawn host n k1) as [rest k2].
    cbn [fst] in *. now constructor.
Qed.

Lemma run_Forall (host : Host) (P : Particle -> Prop) :
  (forall k, P (fst (createParticle host k))) ->
  (forall dt p, P p -> P (integrate host dt p)) ->
  forall (n : Z) (cs : list Call),
    Forall P (particles (run host cs (new host n))).
Proof.
  intros Hnew Hstep n cs.
  induction cs as [| c cs IH] using rev_ind.
  - cbn [run fold_left]. rewrite particles_new. now apply spawn_Forall.
  - rewrite run_snoc. destruct c as [deltaTime | scale | ]; cbn [call].
    + rewrite particles_update.
      apply updateParticles_Forall; [exact Hnew | apply Hstep | exact IH].
    + exact IH.
    + unfold reset. rewrite particles_initializeParticles.
      now apply spawn_Forall.
Qed.

(** X8: in a system built by construction and calls, every hydrogen
    particle has mass 1 and charge 1, every helium particle mass 4 and
    charge 2, and every dust particle has charge 0 and is not deflected:
    dust is never deflected. *)
Theorem type_fixes_mass_and_charge (host : Host) (n : Z) (cs : list Call) :
  Forall
    (fun p =>
       match type p with
       | HYDROGEN => mass p = 1%float /\ charge p = 1%float
       | HELIUM => mass p = 4%float /\ charge p = 2%float
       | HEAVY_ION => True
       | DUST => charge p = 0%float /\ deflected p = false
       end)
    (particles (run host cs (new host n))).
Proof.
  apply (run_Forall host typeConsistent).
  - apply createParticle_typeConsistent.
  - intros dt p. apply integrate_typeConsistent.
Qed.

Definition atMostBrightest (v : float) : bool := (v <=? 1.09)%float.

Lemma storedTriplet_color_bound (p : Particle) :
  typeConsistent p ->
  Forall (fun v => atMostBrightest v = true) (storedTriplet colorTriplet p).
Proof.
  destruct p as [ps vl m c ty a d ag en].
  unfold typeConsistent. cbn [type charge deflected mass].
  destruct a, ty, d; intros H;
    try (destruct H as (_ & H); discriminate H);
    repeat constructor; vm_compute; reflexivity.
Qed.

(** X9: in a system built by construction and calls, no value of the
    colour buffer is above 1.09: the largest is the 0.9 channel of a
    deflected particle times 1.2, and the boosted dust colour
    (1.2, 0.72, 0.12) never occurs, dust being never deflected. *)
Theorem reachable_colors_at_most_1_09 (host : Host) (n : Z)
  (cs : list Call) :
  Forall (fun v => (v <=? 1.09)%float = true)
         (getColors (run host cs (new host n))).
Proof.
  rewrite getColors_flat.
  pose proof (run_Forall host typeConsistent
                (createParticle_typeConsistent host)
                (fun dt p => integrate_typeConsistent host dt p) n cs)
    as Hall.
  induction Hall as [| p ps Hp _ IH]; cbn [flat_map].
  - constructor.
  - apply Forall_app. split; [ | exact IH].
    exact (storedTriplet_color_bound p Hp).
Qed.

(* ------------------------------------------------------------------------- *)
(** ** NaN

    IEEE arithmetic on NaN, read off the specification of the primitive
    operations: every operation with a NaN operand gives NaN, and every
    comparison with NaN is false. *)

Lemma mul_nan_l (a : float) : (nan * a)%float = nan.
Proof.
  apply Prim2SF_inj. rewrite mul_spec.
  change (Prim2SF nan) with S754_nan. reflexivity.
Qed.

Lemma mul_nan_r (a : float) : (a * nan)%float = nan.
Proof.
  apply Prim2SF_inj. rewrite mul_spec.
  change (Prim2SF nan) with S754_nan.
  now destruct (Prim2SF a).
Qed.

Lemma add_nan_l (a : float) : (nan + a)%float = nan.
Proof.
  apply Prim2SF_inj. rewrite add_spec.
  change (Prim2SF nan) with S754_nan. reflexivity.
Qed.

Lemma add_nan_r (a : float) : (a + nan)%float = nan.
Proof.
  apply Prim2SF_inj. rewrite add_spec.
  change (Prim2SF nan) with S754_nan.
  now destruct (Prim2SF a).
Qed.

Lemma sub_nan_l (a : float) : (nan - a)%float = nan.
Proof.
  apply Prim2SF_inj. rewrite sub_spec.
  change (Prim2SF nan) with S754_nan. reflexivity.
Qed.

Lemma sub_nan_r (a : float) : (a - nan)%float = nan.
Proof.
  apply Prim2SF_inj. rewrite sub_spec.
  change (Prim2SF nan) with S754_nan.
  now destruct (Prim2SF a).
Qed.

Lemma sqrt_nan : sqrt nan = nan.
Proof. reflexivity. Qed.

Lemma ltb_nan_l (a : float) : (nan <? a)%float = false.
Proof.
  rewrite ltb_spec. change (Prim2SF nan) with S754_nan. reflexivity.
Qed.

Lemma ltb_nan_r (a : float) : (a <? nan)%float = false.
Proof.
  rewrite ltb_spec. change (Prim2SF nan) with S754_nan.
  unfold SFltb, SFcompare. now destruct (Prim2SF a).
Qed.

Lemma length_hasNaN (v : Vector3) : hasNaN v -> THREE.length v = nan.
Proof.
  unfold hasNaN, THREE.length, THREE.lengthSq.
  intros [H | [H | H]]; rewrite H;
    now rewrite ?mul_nan_l, ?add_nan_l, ?add_nan_r, ?add_nan_l.
Qed.

Lemma sub_hasNaN_l (a b : Vector3) : hasNaN a -> hasNaN (THREE.sub a b).
Proof.
  unfold hasNaN, THREE.sub. cbn [THREE.x THREE.y THREE.z].
  intros [H | [H | H]]; rewrite H, sub_nan_l; tauto.
Qed.

Lemma sub_hasNaN_r (a b : Vector3) : hasNaN b -> hasNaN (THREE.sub a b).
Proof.
  unfold hasNaN, THREE.sub. cbn [THREE.x THREE.y THREE.z].
  intros [H | [H | H]]; rewrite H, sub_nan_r; tauto.
Qed.

Lemma distanceTo_hasNaN (a b : Vector3) :
  hasNaN a -> THREE.distanceTo a b = nan.
Proof.
  intros H.
  change (THREE.distanceTo a b) with (THREE.length (THREE.sub a b)).
  apply length_hasNaN. now apply sub_hasNaN_l.
Qed.

Lemma collidesWithAny_hasNaN (position : Vector3)
  (table : list CollisionEntry) :
  hasNaN position -> collidesWithAny position table = false.
Proof.
  intros H. induction table as [| planet rest IH]; cbn [collidesWithAny].
  - reflexivity.
  - now rewrite (distanceTo_hasNaN position (pos planet) H), ltb_nan_l.
Qed.

(** With a NaN coordinate in the moved position, only the age test can
    deactivate. *)
Lemma active_integrate_hasNaN (host : Host) (dt : float) (p : Particle) :
  hasNaN (position (advance host dt p)) ->
  active (integrate host dt p)
  = active p && negb (expired (advance host dt p)).
Proof.
  intros H.
  rewrite active_integrate, active_advance.
  unfold deactivates, captured, escaped, collided, checkPlanetaryCollision,
    JS.gtb.
  cbn zeta.
  rewrite (length_hasNaN _ H), ltb_nan_l, ltb_nan_r.
  now rewrite (collidesWithAny_hasNaN _ planetPositions H), orb_false_r.
Qed.

(** X10: a particle whose position after the step has a NaN coordinate is
    neither captured, nor escaped, nor collided, whatever the other
    coordinates: every distance computed from it is NaN and every
    comparison false, so [update] keeps it active unless its age is above
    100. *)
Theorem nan_position_passes_every_distance_test (host : Host)
  (deltaTime : float) (sys : ParticleSystem) (i : nat) (p : Particle) :
  nth_error (particles sys) i = Some p ->
  active p = true ->
  hasNaN (position (advance host (deltaTime * timeScale sys) p)) ->
  captured (advance host (deltaTime * timeScale sys) p) = false
  /\ escaped (advance host (deltaTime * timeScale sys) p) = false
  /\ collided (advance host (deltaTime * timeScale sys) p) = false
  /\ exists p',
       nth_error (particles (update host deltaTime sys)) i = Some p'
       /\ active p'
          = negb (JS.gtb (age p + deltaTime * timeScale sys) 100).
Proof.
  intros Hi Hp H.
  unfold captured, escaped, collided, checkPlanetaryCollision, JS.gtb.
  rewrite (length_hasNaN _ H), ltb_nan_l, ltb_nan_r,
    (collidesWithAny_hasNaN _ planetPositions H).
  repeat (split; [reflexivity | ]).
  exists (integrate host (deltaTime * timeScale sys) p).
  split; [exact (update_integrates host deltaTime sys i p Hi Hp) | ].
  rewrite (active_integrate_hasNaN host _ p H), Hp.
  unfold expired, JS.gtb. now rewrite age_advance.
Qed.

(** An active particle whose position and age are NaN. *)
Definition poisoned (p : Particle) : Prop :=
  active p = true /\ position p = vec3 nan nan nan /\ age p = nan.

Lemma integrate_poisons (host : Host) (dt : float) (p : Particle) :
  active p = true ->
  dt = nan \/ (position p = vec3 nan nan nan /\ age p = nan) ->
  poisoned (integrate host dt p).
Proof.
  intros Hp Hnan.
  assert (Hpos : position (advance host dt p) = vec3 nan nan nan).
  { rewrite position_advance.
    unfold THREE.add, THREE.multiplyScalar. cbn [THREE.x THREE.y THREE.z].
    destruct Hnan as [-> | (-> & _)]; cbn [THREE.x THREE.y THREE.z].
    - now rewrite !mul_nan_r, !add_nan_r.
    - now rewrite !add_nan_l. }
  assert (Hage : age (advance host dt p) = nan).
  { rewrite age_advance.
    destruct Hnan as [-> | (_ & ->)];
      [apply add_nan_r | apply add_nan_l]. }
  destruct (integrate_keeps_motion host dt p) as (Ep & _ & Ea).
  unfold poisoned. rewrite Ep, Ea.
  split; [ | split; [exact Hpos | exact Hage] ].
  rewrite active_integrate_hasNaN by (rewrite Hpos; left; reflexivity).
  rewrite Hp. unfold expired, JS.gtb. now rewrite Hage, ltb_nan_r.
Qed.

(** X11: [update(NaN)] (or a NaN time scale) leaves every active particle
    active with a NaN position and a NaN age; and an active particle in
    that state stays in it through every later [update], whatever the
    step: no test deactivates it and it is never respawned. *)
Theorem nan_step_poisons_active_particles (host : Host)
  (deltaTime : float) (sys : ParticleSystem) (i : nat) (p : Particle) :
  nth_error (particles sys) i = Some p ->
  active p = true ->
  (deltaTime = nan \/ timeScale sys = nan)
  \/ (position p = vec3 nan nan nan /\ age p = nan) ->
  exists p',
    nth_error (particles (update host deltaTime sys)) i = Some p'
    /\ active p' = true
    /\ position p' = vec3 nan nan nan
    /\ age p' = nan.
Proof.
  intros Hi Hp Hnan.
  exists (integrate host (deltaTime * timeScale sys) p).
  split; [exact (update_integrates host deltaTime sys i p Hi Hp) | ].
  apply integrate_poisons; [exact Hp | ].
  destruct Hnan as [[-> | ->] | H].
  - left. apply mul_nan_l.
  - left. apply mul_nan_r.
  - right. exact H.
Qed.

(* ------------------------------------------------------------------------- *)
(** ** The gravitational field of SolarSystem *)

Lemma bodyGravity_hasNaN (toBody : Vector3) (bodyMass : float) :
  hasNaN toBody -> bodyGravity toBody bodyMass = None.
Proof.
  intros H. unfold bodyGravity, JS.gtb. cbn zeta.
  now rewrite (length_hasNaN _ H), ltb_nan_r.
Qed.

Lemma planet_terms_of_nan_position (position : Vector3)
  (planets : list SolarSystem.Planet) :
  hasNaN position ->
  forall field,
    fold_left
      (fun field planet => addForce field (planetGravity position planet))
      planets field
    = field.
Proof.
  intros H. induction planets as [| planet rest IH]; intros field.
  - reflexivity.
  - cbn [fold_left]. rewrite IH. unfold planetGravity.
    now rewrite bodyGravity_hasNaN by (now apply sub_hasNaN_r).
Qed.

(** X12: for a position with a NaN coordinate [getGravitationalField]
    returns the zero vector: the distance to every body is NaN, no guard
    [distance > 0] holds and no term is added. *)
Theorem gravitational_field_of_nan_position_is_zero (position : Vector3) :
  hasNaN position -> getGravitationalField position = vec3 0 0 0.
Proof.
  intros H. unfold getGravitationalField, sunGravity. cbn zeta.
  rewrite bodyGravity_hasNaN by (now apply sub_hasNaN_r).
  cbn [addForce].
  apply planet_terms_of_nan_position. exact H.
Qed.

(** X13: on a particle of mass 1 the gravity of [ParticleSystem.update]
    is exactly the Sun's term of [SolarSystem.getGravitationalField] at the
    particle's position: same guard, same direction, same magnitude. *)
Theorem unit_mass_gravity_is_sun_term_of_field (p : Particle) :
  mass p = 1%float ->
  gravityForce p = sunGravity (position p).
Proof.
  intros Hm. unfold gravityForce, sunGravity, bodyGravity.
  rewrite Hm. reflexivity.
Qed.

Lemma sub_diag (a : float) : (a - a)%float = 0%float \/ (a - a)%float = nan.
Proof.
  assert (H : Prim2SF (a - a)%float = S754_zero false
              \/ Prim2SF (a - a)%float = S754_nan).
  { rewrite sub_spec. unfold SF64sub, SFsub.
    destruct (Prim2SF a) as [s | s | | s m e].
    - left. now destruct s.
    - right. now destruct s.
    - now right.
    - left. now rewrite Z.sub_diag. }
  destruct H as [H | H]; [left | right]; apply Prim2SF_inj; now rewrite H.
Qed.



(* ------------------------------------------------------------------------- *)
(** ** Lookup of a planet by name *)

Lemma planet_names_distinct :
  NoDup (map SolarSystem.name SolarSystem.getPlanets).
Proof.
  unfold SolarSystem.getPlanets, SolarSystem.initializePlanets.
  cbn [map SolarSystem.name].
  repeat (constructor;
          [cbn [In]; intros H;
           repeat (destruct H as [H | H]; [discriminate H | ]); exact H | ]).
  constructor.
Qed.

(** [find] by name in a list with distinct names. *)
Lemma find_by_name (planets : list SolarSystem.Planet) :
  NoDup (map SolarSystem.name planets) ->
  forall planet,
    In planet planets ->
    find (fun q => String.eqb (SolarSystem.name q) (SolarSystem.name planet))
         planets
    = Some planet.
Proof.
  induction planets as [| q planets IH]; intros Hnd planet Hin.
  - destruct Hin.
  - cbn [map] in Hnd. inversion Hnd as [| ? ? Hq Hrest]; subst.
    cbn [find]. destruct Hin as [-> | Hin].
    + now rewrite String.eqb_refl.
    + destruct (String.eqb_spec (SolarSystem.name q)
                  (SolarSystem.name planet)) as [Heq | Hne].
      * exfalso. apply Hq. rewrite Heq. now apply in_map.
      * now apply IH.
Qed.

(** X15: [getPlanetByName] returns a planet exactly when the catalog has a
    planet of that name (compared as strings, so case matters), and then
    returns that planet; for any other name, such as Pluto, it returns
    [undefined]. *)
Theorem getPlanetByName_finds_exactly_the_catalog_names :
  (forall n planet,
      SolarSystem.getPlanetByName n = Some planet
      <-> In planet SolarSystem.getPlanets /\ SolarSystem.name planet = n)
  /\ (forall n,
         SolarSystem.getPlanetByName n = None
         <-> ~ In n (map SolarSystem.name SolarSystem.getPlanets))
  /\ SolarSystem.getPlanetByName "Pluto" = None
  /\ SolarSystem.getPlanetByName "earth" = None.
Proof.
  assert (Hsome : forall n planet,
             SolarSystem.getPlanetByName n = Some planet
             <-> In planet SolarSystem.getPlanets
                 /\ SolarSystem.name planet = n).
  { intros n planet. unfold SolarSystem.getPlanetByName. split.
    - intros H. apply find_some in H. destruct H as (Hin & Heq).
      split; [exact Hin | now apply String.eqb_eq].
    - intros (Hin & <-).
      now apply find_by_name; [apply planet_names_distinct | ]. }
  split; [exact Hsome | ].
  split; [ | split; reflexivity].
  intros n. split.
  - intros Hnone Hin. apply in_map_iff in Hin.
    destruct Hin as (planet & Hname & Hin).
    assert (H : SolarSystem.getPlanetByName n = Some planet)
      by (apply Hsome; now split).
    congruence.
  - intros Hnot.
    destruct (SolarSystem.getPlanetByName n) as [planet |] eqn:H;
      [ | reflexivity].
    apply Hsome in H. destruct H as (Hin & <-).
    exfalso. apply Hnot. now apply in_map.
Qed.

(* ------------------------------------------------------------------------- *)
(** ** Reading the statistics *)

(** X16: on a system built by construction and calls, [getStatistics]
    returns an object that did not exist before and reads as the stored
    snapshot; the call changes neither the particles, nor the time scale,
    nor the stored snapshot, and the next [update] computes the same
    particles as it would have without the call. *)
Theorem getStatistics_leaves_the_simulation_alone (host : Host) (n : Z)
  (cs : list Call) (deltaTime : float) :
  exists copy sys1 snapshot,
    getStatistics (run host cs (new host n)) = Some (copy, sys1)
    /\ lookup (heap (run host cs (new host n))) copy = None
    /\ storedStatistics (run host cs (new host n)) = Some snapshot
    /\ snapshotAt (heap sys1) copy = Some snapshot
    /\ storedStatistics sys1 = Some snapshot
    /\ particles sys1 = particles (run host cs (new host n))
    /\ timeScale sys1 = timeScale (run host cs (new host n))
    /\ particles (update host deltaTime sys1)
       = particles (update host deltaTime (run host cs (new host n))).
Proof.
  set (sys := run host cs (new host n)).
  destruct (run_sound host cs n) as (s & e & t & Hs & _). fold sys in Hs.
  destruct (getStatistics_reads_stored sys s e t Hs) as (Hcopy & Hstored).
  exists (List.length (heap sys)), (withHeap (heap sys ++ [OStats s]) sys),
    (s, e, t).
  split; [exact (getStatistics_allocates sys s e t Hs) | ].
  split; [unfold lookup; apply nth_error_None; lia | ].
  split; [exact Hs | ]. split; [exact Hcopy | ]. split; [exact Hstored | ].
  split; [reflexivity | ]. split; [reflexivity | ].
  now rewrite !particles_update.
Qed.

(* ------------------------------------------------------------------------- *)
(** ** The histories of the statistics panel *)

Lemma sliceLast_length {A : Type} (l : list A) (v : A) :
  List.length (sliceLast 30 (l ++ [v])) = Nat.min (List.length l + 1) 30.
Proof.
  unfold sliceLast. rewrite length_skipn, length_app. cbn [List.length]. lia.
Qed.

Lemma Forall_skipn {A : Type} (P : A -> Prop) (k : nat) :
  forall l : list A, Forall P l -> Forall P (skipn k l).
Proof.
  induction k as [| k IH]; intros l Hl.
  - exact Hl.
  - destruct l as [| a l]; [constructor | ].
    cbn [skipn]. apply IH. now inversion Hl.
Qed.

Lemma Forall_sliceLast {A : Type} (P : A -> Prop) (l : list A) (v : A) :
  Forall P l -> P v -> Forall P (sliceLast 30 (l ++ [v])).
Proof.
  intros Hl Hv. unfold sliceLast. apply Forall_skipn.
  apply Forall_app. split; [exact Hl | now constructor].
Qed.

(** What the calls and the panel's reads keep of a system constructed with
    [n] particles. *)
Definition deflectedBounded (sys : ParticleSystem) : Prop :=
  exists s e t,
    storedStatistics sys = Some (s, e, t)
    /\ (0 <= deflectedParticles s
        <= Z.of_nat (List.length (particles sys)))%Z.

Definition watchedSystem (n : Z) (sys : ParticleSystem) : Prop :=
  maxParticles sys = n
  /\ List.length (particles sys) = Z.to_nat n
  /\ deflectedBounded sys.

Lemma updateStatistics_deflectedBounded (sys : ParticleSystem) :
  deflectedBounded (updateStatistics sys).
Proof.
  destruct (storedStatistics_updateStatistics sys)
    as (s & Hs & _ & _ & Hdef & _).
  destruct (countParticles_counts (particles sys)) as (_ & _ & Hd & _).
  exists s, (Counters.energy (countParticles (particles sys))),
    (Counters.types (countParticles (particles sys))).
  split; [exact Hs | ].
  rewrite particles_updateStatistics, Hdef, Hd.
  pose proof (filter_length_le isActiveDeflected (particles sys)). lia.
Qed.

(** What the interval callback keeps of the panel: three histories of the
    same length, one entry per ten callbacks up to 30, and deflected
    counts between 0 and the number of particles. *)
Definition panelSound (n : Z) (panel : Panel) : Prop :=
  List.length (velocityHistory panel) = Nat.min (frameCount panel / 10) 30
  /\ List.length (deflectionHistory panel)
     = Nat.min (frameCount panel / 10) 30
  /\ List.length (timeLabels panel) = Nat.min (frameCount panel / 10) 30
  /\ Forall (fun d => (0 <= d <= Z.of_nat (Z.to_nat n))%Z)
            (deflectionHistory panel).

Lemma watchedSystem_new (host : Host) (n : Z) :
  watchedSystem n (new host n).
Proof.
  destruct (run_length host [] n) as (Hmax & Hlen).
  split; [exact Hmax | ]. split; [exact Hlen | ].
  destruct (new_recomputes host n) as (sys' & ->).
  apply updateStatistics_deflectedBounded.
Qed.

Lemma watchedSystem_call (host : Host) (n : Z) (c : Call)
  (sys : ParticleSystem) :
  watchedSystem n sys -> watchedSystem n (call host c sys).
Proof.
  intros (Hmax & Hlen & Hsound).
  split; [now rewrite maxParticles_call | ].
  split.
  - pose proof (call_length host c sys) as Hc.
    rewrite Hmax in Hc. now apply Hc.
  - destruct (call_recomputes host c sys) as [(sys' & ->) | (Hp & Hs)].
    + apply updateStatistics_deflectedBounded.
    + unfold deflectedBounded in *. now rewrite Hp, Hs.
Qed.

Lemma panelTick_sound (n : Z) (sys : ParticleSystem) (panel : Panel) :
  watchedSystem n sys ->
  panelSound n panel ->
  exists sys' panel',
    panelTick sys panel = Some (sys', panel')
    /\ watchedSystem n sys'
    /\ panelSound n panel'
    /\ frameCount panel' = S (frameCount panel).
Proof.
  intros (Hmax & Hlen & Hsound) (Hv & Hd & Hl & Hbound).
  destruct Hsound as (s & e & t & Hs & Hdef).
  unfold panelTick.
  rewrite (getStatistics_allocates sys s e t Hs).
  cbn [heap withHeap]. rewrite lookup_new.
  destruct (getStatistics_reads_stored sys s e t Hs) as (_ & Hstored).
  assert (Hsys : watchedSystem n (withHeap (heap sys ++ [OStats s]) sys)).
  { split; [exact Hmax | ]. split; [exact Hlen | ].
    exists s, e, t. cbn [particles withHeap].
    split; [exact Hstored | exact Hdef]. }
  pose proof (Nat.div_mod_eq (S (frameCount panel)) 10) as D1.
  pose proof (Nat.div_mod_eq (frameCount panel) 10) as D2.
  pose proof (Nat.mod_upper_bound (frameCount panel) 10) as U1.
  pose proof (Nat.mod_upper_bound (S (frameCount panel)) 10) as U2.
  destruct (Nat.eqb (S (frameCount panel) mod 10) 0) eqn:Htenth.
  - apply Nat.eqb_eq in Htenth.
    do 2 eexists. split; [reflexivity | ]. split; [exact Hsys | ].
    split; [ | reflexivity].
    unfold panelSound.
    cbn [velocityHistory deflectionHistory timeLabels frameCount].
    rewrite !sliceLast_length, Hv, Hd, Hl.
    repeat split; try lia.
    apply Forall_sliceLast; [exact Hbound | ].
    now rewrite <- Hlen.
  - apply Nat.eqb_neq in Htenth.
    do 2 eexists. split; [reflexivity | ]. split; [exact Hsys | ].
    split; [ | reflexivity].
    unfold panelSound.
    cbn [velocityHistory deflectionHistory timeLabels frameCount].
    rewrite Hv, Hd, Hl.
    repeat split; try lia. exact Hbound.
Qed.

Lemma runEvents_sound (host : Host) (n : Z) (es : list Event) :
  forall (sys : ParticleSystem) (panel : Panel),
    watchedSystem n sys ->
    panelSound n panel ->
    exists sys' panel',
      runEvents host es (sys, panel) = Some (sys', panel')
      /\ watchedSystem n sys'
      /\ panelSound n panel'
      /\ frameCount panel'
         = frameCount panel + List.length (filter isPanelTick es).
Proof.
  induction es as [| e es IH]; intros sys panel Hsys Hpanel.
  - exists sys, panel.
    split; [reflexivity | ]. split; [exact Hsys | ]. split; [exact Hpanel | ].
    cbn. lia.
  - cbn [runEvents filter]. destruct e as [c | ]; cbn [step isPanelTick fst snd].
    + destruct (IH (call host c sys) panel
                  (watchedSystem_call host n c sys Hsys) Hpanel)
        as (sys' & panel' & Hrun & Hs' & Hp' & Hfc).
      now exists sys', panel'.
    + destruct (panelTick_sound n sys panel Hsys Hpanel)
        as (sys1 & panel1 & -> & Hs1 & Hp1 & Hfc1).
      destruct (IH sys1 panel1 Hs1 Hp1)
        as (sys' & panel' & Hrun & Hs' & Hp' & Hfc).
      exists sys', panel'.
      split; [exact Hrun | ]. split; [exact Hs' | ]. split; [exact Hp' | ].
      rewrite Hfc, Hfc1. cbn [List.length]. lia.
Qed.

(** X17: whatever calls are made on the system and whenever the panel's
    interval callback runs, the callback never fails, [frameCount] is the
    number of times it ran, and the three histories have the same length,
    one entry per ten runs and at most 30; every deflected count recorded
    lies between 0 and the number of particles. *)
Theorem panel_histories_grow_together_up_to_30 (host : Host) (n : Z)
  (es : list Event) :
  exists sys panel,
    runEvents host es (new host n, initialPanel) = Some (sys, panel)
    /\ frameCount panel = List.length (filter isPanelTick es)
    /\ List.length (velocityHistory panel)
       = Nat.min (frameCount panel / 10) 30
    /\ List.length (deflectionHistory panel)
       = Nat.min (frameCount panel / 10) 30
    /\ List.length (timeLabels panel) = Nat.min (frameCount panel / 10) 30
    /\ Forall (fun d => (0 <= d <= Z.of_nat (Z.to_nat n))%Z)
              (deflectionHistory panel).
Proof.
  assert (Hinit : panelSound n initialPanel).
  { unfold panelSound, initialPanel. cbn. repeat split; constructor. }
  destruct (runEvents_sound host n es (new host n) initialPanel
              (watchedSystem_new host n) Hinit)
    as (sys & panel & Hrun & _ & (Hv & Hd & Hl & Hb) & Hfc).
  exists sys, panel. cbn [frameCount initialPanel] in Hfc.
  repeat split; assumption.
Qed.

Lemma sliceLast_window {A : Type} (l : list A) (v : A) :
  List.length l <= 30 ->
  sliceLast 30 (l ++ [v])
  = (if List.length l <? 30 then l else tl l) ++ [v].
Proof.
  intros Hlen. unfold sliceLast. rewrite length_app. cbn [List.length].
  destruct (List.length l <? 30) eqn:Hlt.
  - apply Nat.ltb_lt in Hlt.
    replace (List.length l + 1 - 30) with 0 by lia. reflexivity.
  - apply Nat.ltb_ge in Hlt.
    replace (List.length l + 1 - 30) with 1 by lia.
    destruct l as [| a l]; [cbn in Hlt; lia | reflexivity].
Qed.

(** X18: on every tenth run of the interval callback the current average
    velocity, deflected count and label go to the end of the histories; a
    history that has fewer than 30 entries keeps them all, and one that
    has 30 drops its oldest entry: a sliding window of the last 30
    samples. *)
Theorem tenth_tick_slides_the_history_window (sys : ParticleSystem)
  (panel : Panel) (s : Stats) (e : EnergyDistribution) (t : ParticleTypes) :
  storedStatistics sys = Some (s, e, t) ->
  S (frameCount panel) mod 10 = 0 ->
  List.length (velocityHistory panel) <= 30 ->
  List.length (deflectionHistory panel) <= 30 ->
  List.length (timeLabels panel) <= 30 ->
  exists sys1 panel',
    panelTick sys panel = Some (sys1, panel')
    /\ velocityHistory panel'
       = (if List.length (velocityHistory panel) <? 30
          then velocityHistory panel else tl (velocityHistory panel))
         ++ [averageVelocity s]
    /\ deflectionHistory panel'
       = (if List.length (deflectionHistory panel) <? 30
          then deflectionHistory panel else tl (deflectionHistory panel))
         ++ [deflectedParticles s]
    /\ timeLabels panel'
       = (if List.length (timeLabels panel) <? 30
          then timeLabels panel else tl (timeLabels panel))
         ++ [timeLabel (S (frameCount panel))].
Proof.
  intros Hs Htenth Hv Hd Hl.
  unfold panelTick.
  rewrite (getStatistics_allocates sys s e t Hs).
  cbn [heap withHeap]. rewrite lookup_new.
  apply Nat.eqb_eq in Htenth. cbn zeta. rewrite Htenth.
  do 2 eexists. split; [reflexivity | ].
  cbn [velocityHistory deflectionHistory timeLabels].
  now rewrite !sliceLast_window by assumption.
Qed.

(* ------------------------------------------------------------------------- *)
(** ** The further properties on concrete inputs *)

(** X5 on [cruisingDust] and a frame of 0.016. *)
Lemma cruising_dust_keeps_mass_and_energy :
  nth_error (particles (systemOf [cruisingDust])) 0 = Some cruisingDust
  /\ active cruisingDust = true
  /\ (exists p',
         nth_error
           (particles (update ExampleHost.host 0.016 (systemOf [cruisingDust])))
           0
         = Some p'
         /\ mass p' = mass cruisingDust
         /\ charge p' = charge cruisingDust
         /\ type p' = type cruisingDust
         /\ energy p' = energy cruisingDust
         /\ age p'
            = (age cruisingDust
               + 0.016 * timeScale (systemOf [cruisingDust]))%float).
Proof.
  assert (H1 : nth_error (particles (systemOf [cruisingDust])) 0
               = Some cruisingDust) by reflexivity.
  assert (H2 : active cruisingDust = true) by reflexivity.
  split; [exact H1 | ]. split; [exact H2 | ].
  exact (update_keeps_mass_charge_type_energy ExampleHost.host 0.016
           (systemOf [cruisingDust]) 0 cruisingDust H1 H2).
Defined.

(** X6 on [deflectedHydrogen]. *)
Lemma deflected_hydrogen_stays_deflected :
  nth_error (particles (systemOf [deflectedHydrogen])) 0
  = Some deflectedHydrogen
  /\ active deflectedHydrogen = true
  /\ deflected deflectedHydrogen = true
  /\ (exists p',
         nth_error
           (particles
              (update ExampleHost.host 0.016 (systemOf [deflectedHydrogen])))
           0
         = Some p'
         /\ deflected p' = true).
Proof.
  assert (H1 : nth_error (particles (systemOf [deflectedHydrogen])) 0
               = Some deflectedHydrogen) by reflexivity.
  assert (H2 : active deflectedHydrogen = true) by reflexivity.
  assert (H3 : deflected deflectedHydrogen = true) by reflexivity.
  repeat (split; [assumption | ]).
  destruct (deflected_flag_is_sticky ExampleHost.host 0.016
              (systemOf [deflectedHydrogen]) 0 deflectedHydrogen H1 H2)
    as (p' & Hn & _ & Hd).
  exists p'. split; [exact Hn | exact (Hd H3)].
Defined.

(** X7 on [cruisingDust]. *)
Lemma cruising_dust_is_not_deflected :
  nth_error (particles (systemOf [cruisingDust])) 0 = Some cruisingDust
  /\ active cruisingDust = true
  /\ (charge cruisingDust =? 0)%float = true
  /\ lorentzForce ExampleHost.host cruisingDust = None
  /\ (exists p',
         nth_error
           (particles (update ExampleHost.host 0.016 (systemOf [cruisingDust])))
           0
         = Some p'
         /\ deflected p' = deflected cruisingDust).
Proof.
  assert (H1 : nth_error (particles (systemOf [cruisingDust])) 0
               = Some cruisingDust) by reflexivity.
  assert (H2 : active cruisingDust = true) by reflexivity.
  assert (H3 : (charge cruisingDust =? 0)%float = true) by reflexivity.
  repeat (split; [assumption | ]).
  destruct (uncharged_particle_is_never_deflected ExampleHost.host 0.016
              (systemOf [cruisingDust]) 0 cruisingDust H1 H2 H3)
    as (Hl & _ & Hp).
  split; [exact Hl | exact Hp].
Defined.

(** X10 on [nanDust]: not deactivated by a frame of 0.016. *)
Lemma nan_dust_stays_active :
  nth_error (particles (systemOf [nanDust])) 0 = Some nanDust
  /\ active nanDust = true
  /\ (exists p',
         nth_error
           (particles (update ExampleHost.host 0.016 (systemOf [nanDust]))) 0
         = Some p'
         /\ active p' = true).
Proof.
  assert (H1 : nth_error (particles (systemOf [nanDust])) 0 = Some nanDust)
    by reflexivity.
  assert (H2 : active nanDust = true) by reflexivity.
  assert (H3 : hasNaN
                 (position
                    (advance ExampleHost.host
                       (0.016 * timeScale (systemOf [nanDust])) nanDust)))
    by (left; vm_compute; reflexivity).
  split; [exact H1 | ]. split; [exact H2 | ].
  destruct (nan_position_passes_every_distance_test ExampleHost.host 0.016
              (systemOf [nanDust]) 0 nanDust H1 H2 H3)
    as (_ & _ & _ & p' & Hn & Ha).
  exists p'. split; [exact Hn | ].
  rewrite Ha. vm_compute. reflexivity.
Defined.

(** X11 on [cruisingDust] and [update(NaN)]. *)
Lemma nan_frame_poisons_cruising_dust :
  nth_error (particles (systemOf [cruisingDust])) 0 = Some cruisingDust
  /\ active cruisingDust = true
  /\ (exists p',
         nth_error
           (particles (update ExampleHost.host nan (systemOf [cruisingDust])))
           0
         = Some p'
         /\ active p' = true
         /\ position p' = vec3 nan nan nan
         /\ age p' = nan).
Proof.
  assert (H1 : nth_error (particles (systemOf [cruisingDust])) 0
               = Some cruisingDust) by reflexivity.
  assert (H2 : active cruisingDust = true) by reflexivity.
  split; [exact H1 | ]. split; [exact H2 | ].
  exact (nan_step_poisons_active_particles ExampleHost.host nan
           (systemOf [cruisingDust]) 0 cruisingDust H1 H2
           (or_introl (or_introl eq_refl))).
Defined.

(** X12 at the position (NaN, 1, 2). *)
Lemma field_at_nan_position_is_zero :
  hasNaN (vec3 nan 1 2)
  /\ getGravitationalField (vec3 nan 1 2) = vec3 0 0 0.
Proof.
  assert (H : hasNaN (vec3 nan 1 2)) by (left; reflexivity).
  split; [exact H | ].
  exact (gravitational_field_of_nan_position_is_zero (vec3 nan 1 2) H).
Defined.

(** X13 on [deflectedHydrogen], of mass 1. *)
Lemma hydrogen_gravity_is_sun_term :
  mass deflectedHydrogen = 1%float
  /\ gravityForce deflectedHydrogen
     = sunGravity (position deflectedHydrogen).
Proof.
  assert (H : mass deflectedHydrogen = 1%float) by reflexivity.
  split; [exact H | ].
  exact (unit_mass_gravity_is_sun_term_of_field deflectedHydrogen H).
Defined.

(** X18 on the tenth run of the callback over a system of two particles. *)
Lemma tenth_tick_records_first_sample :
  exists s e t,
    storedStatistics (new ExampleHost.host 2) = Some (s, e, t)
    /\ S (frameCount ninthFramePanel) mod 10 = 0
    /\ (exists sys1 panel',
           panelTick (new ExampleHost.host 2) ninthFramePanel
           = Some (sys1, panel')
           /\ velocityHistory panel' = [averageVelocity s]
           /\ deflectionHistory panel' = [deflectedParticles s]
           /\ timeLabels panel' = ["1s"%string]).
Proof.
  destruct (run_sound ExampleHost.host [] 2) as (s & e & t & Hs & _).
  cbn [run fold_left] in Hs.
  exists s, e, t.
  assert (H2 : S (frameCount ninthFramePanel) mod 10 = 0) by reflexivity.
  assert (H3 : List.length (velocityHistory ninthFramePanel) <= 30)
    by (cbn; lia).
  assert (H4 : List.length (deflectionHistory ninthFramePanel) <= 30)
    by (cbn; lia).
  assert (H5 : List.length (timeLabels ninthFramePanel) <= 30)
    by (cbn; lia).
  split; [exact Hs | ]. split; [exact H2 | ].
  exact (tenth_tick_slides_the_history_window (new ExampleHost.host 2)
           ninthFramePanel s e t Hs H2 H3 H4 H5).
Defined.

(* ------------------------------------------------------------------------- *)
(** ** Deflected particles in the statistics *)

Lemma filter_and_length_le {A : Type} (f g : A -> bool) (l : list A) :
  List.length (filter (fun a => f a && g a) l) <= List.length (filter f l).
Proof.
  induction l as [| a l IH]; cbn [filter].
  - lia.
  - destruct (f a), (g a); cbn [andb List.length]; lia.
Qed.

(** The counts of the snapshot [updateStatistics] stores, read on the
    particle array. *)
Lemma updateStatistics_counts (sys : ParticleSystem) :
  exists s e t,
    storedStatistics (updateStatistics sys) = Some (s, e, t)
    /\ deflectedParticles s
       = Z.of_nat
           (List.length
              (filter isActiveDeflected (particles (updateStatistics sys))))
    /\ capturedParticles s
       = Z.of_nat
           (List.length
              (filter isInactive (particles (updateStatistics sys))))
    /\ activeParticles s
       = Z.of_nat
           (List.length (filter isActive (particles (updateStatistics sys))))
    /\ (deflectedParticles s <= activeParticles s)%Z.
Proof.
  destruct (storedStatistics_updateStatistics sys)
    as (s & Hs & _ & Hact & Hdef & Hcap & _).
  destruct (countParticles_counts (particles sys)) as (Ha & Hc & Hd & _).
  do 3 eexists. split; [exact Hs | ].
  rewrite particles_updateStatistics, Hdef, Hcap, Hact, Ha, Hc, Hd.
  repeat split.
  pose proof (filter_and_length_le (fun p => active p) (fun p => deflected p)
                (particles sys)) as Hle.
  unfold isActiveDeflected, isActive. lia.
Qed.

(** C10: in every snapshot (of any [updateStatistics], and after
    construction and any calls) the deflected count is the number of
    particles that are active and deflected, the captured count the number
    of inactive particles whatever their [deflected] flag, and the
    deflected count is at most the active count.  A deflected particle
    that [update] deactivates keeps its flag, so from then on it is one of
    the captured and none of the deflected. *)
Theorem deflected_count_counts_only_active_particles :
  (forall sys : ParticleSystem,
      exists s e t,
        storedStatistics (updateStatistics sys) = Some (s, e, t)
        /\ deflectedParticles s
           = Z.of_nat
               (List.length (filter isActiveDeflected (particles sys)))
        /\ capturedParticles s
           = Z.of_nat (List.length (filter isInactive (particles sys)))
        /\ activeParticles s
           = Z.of_nat (List.length (filter isActive (particles sys)))
        /\ (deflectedParticles s <= activeParticles s)%Z)
  /\ (forall (host : Host) (n : Z) (cs : list Call),
         exists s e t,
           storedStatistics (run host cs (new host n)) = Some (s, e, t)
           /\ deflectedParticles s
              = Z.of_nat
                  (List.length
                     (filter isActiveDeflected
                             (particles (run host cs (new host n)))))
           /\ capturedParticles s
              = Z.of_nat
                  (List.length
                     (filter isInactive
                             (particles (run host cs (new host n)))))
           /\ activeParticles s
              = Z.of_nat
                  (List.length
                     (filter isActive
                             (particles (run host cs (new host n)))))
           /\ (deflectedParticles s <= activeParticles s)%Z)
  /\ (forall (host : Host) (deltaTime : float) (sys : ParticleSystem)
             (i : nat) (p : Particle),
         nth_error (particles sys) i = Some p ->
         active p = true ->
         deflected p = true ->
         deactivates host (deltaTime * timeScale sys) p = true ->
         exists p',
           nth_error (particles (update host deltaTime sys)) i = Some p'
           /\ active p' = false
           /\ deflected p' = true
           /\ isInactive p' = true
           /\ isActiveDeflected p' = false).
Proof.
  split; [ | split].
  - intros sys.
    destruct (updateStatistics_counts sys) as (s & e & t & H).
    rewrite particles_updateStatistics in H. now exists s, e, t.
  - intros host n cs.
    apply (run_stored_property host
             (fun ps stored =>
                exists s e t,
                  stored = Some (s, e, t)
                  /\ deflectedParticles s
                     = Z.of_nat (List.length (filter isActiveDeflected ps))
                  /\ capturedParticles s
                     = Z.of_nat (List.length (filter isInactive ps))
                  /\ activeParticles s
                     = Z.of_nat (List.length (filter isActive ps))
                  /\ (deflectedParticles s <= activeParticles s)%Z)).
    intros sys. apply updateStatistics_counts.
  - intros host deltaTime sys i p Hi Hp Hd Hdeact.
    exists (integrate host (deltaTime * timeScale sys) p).
    split; [exact (update_integrates host deltaTime sys i p Hi Hp) | ].
    assert (Ha : active (integrate host (deltaTime * timeScale sys) p)
                 = false).
    { rewrite active_integrate, Hdeact. apply andb_false_r. }
    assert (Hf : deflected (integrate host (deltaTime * timeScale sys) p)
                 = true).
    { destruct (integrate_keeps_identity host (deltaTime * timeScale sys) p)
        as (_ & _ & _ & _ & ->).
      now rewrite Hd. }
    unfold isInactive, isActiveDeflected. rewrite Ha, Hf.
    now repeat split.
Qed.

(** C10 on a deflected hydrogen ion at the origin: a frame of 0.016
    captures it; it is still deflected, and the snapshot after the frame
    counts it as captured and not as deflected. *)
Lemma captured_deflected_hydrogen_is_not_counted_deflected :
  nth_error (particles (systemOf [deflectedOriginHydrogen])) 0
  = Some deflectedOriginHydrogen
  /\ active deflectedOriginHydrogen = true
  /\ deflected deflectedOriginHydrogen = true
  /\ (exists p',
         nth_error
           (particles
              (update ExampleHost.host 0.016
                 (systemOf [deflectedOriginHydrogen]))) 0
         = Some p'
         /\ active p' = false
         /\ deflected p' = true)
  /\ (exists s e t,
         storedStatistics
           (update ExampleHost.host 0.016 (systemOf [deflectedOriginHydrogen]))
         = Some (s, e, t)
         /\ deflectedParticles s = 0%Z
         /\ capturedParticles s = 1%Z
         /\ activeParticles s = 0%Z).
Proof.
  assert (H1 : nth_error (particles (systemOf [deflectedOriginHydrogen])) 0
               = Some deflectedOriginHydrogen) by reflexivity.
  assert (H2 : active deflectedOriginHydrogen = true) by reflexivity.
  assert (H3 : deflected deflectedOriginHydrogen = true) by reflexivity.
  assert (H4 : deactivates ExampleHost.host
                 (0.016 * timeScale (systemOf [deflectedOriginHydrogen]))
                 deflectedOriginHydrogen = true)
    by (vm_compute; reflexivity).
  repeat (split; [assumption | ]).
  destruct deflected_count_counts_only_active_particles as (_ & _ & Hslot).
  destruct (Hslot ExampleHost.host 0.016%float
              (systemOf [deflectedOriginHydrogen])
              0 deflectedOriginHydrogen H1 H2 H3 H4)
    as (p' & Hn & Ha & Hd & _).
  split.
  - exists p'. now repeat split.
  - do 3 eexists. split; [vm_compute; reflexivity | ].
    repeat split.
Defined.
